(** * Natural-language command pipeline of the iOS simulator MCP server

    A shallow embedding of the interpretation pipeline:

    - [FuzzyMatcher]           (utils/FuzzyMatch.ts)
    - [BaseCommandDefinition]  (parser/commands/BaseCommandDefinition.ts)
    - [CommandRegistry]        (parser/commands/CommandRegistry.ts)
    - [ParserToOrchestrator]   (adapters/ParserToOrchestrator.ts)
    - [HelpSystem]             (help/HelpSystem.ts)

    Conventions of the embedding.

    - A JavaScript string is the list of its UTF-16 code units; [length],
      [charAt], [includes] and [startsWith] all work on code units.
    - [String.prototype.trim] is defined on the ECMAScript white-space set.
      [String.prototype.toLowerCase] depends on the Unicode tables of the
      host; it is a field of the class [Host], and everything that is proved
      for every host holds whatever those tables are.  The instance
      [latin_host] implements the Basic Latin and Latin-1 rows of the table
      together with U+0130, and is the one concrete inputs are evaluated on.
    - A JavaScript number is an exact rational ([Q]); the rounding of
      binary64 arithmetic is not modelled.  Lengths, indices and edit
      distances are natural numbers.
    - Objects that are mutated live in a heap ([gmap loc JsObject]); an
      object is the association list of its own properties in insertion
      order. *)

From Stdlib Require Import List NArith ZArith QArith Qabs Lia Lqa Bool String Ascii.
From Stdlib Require Import Sorted Permutation.
From stdpp Require Import base gmap.
Import ListNotations.

Local Open Scope nat_scope.

(** ** JavaScript strings *)

Definition char16 := N.
Definition jsstring := list char16.

(** [a === b] on strings *)
Definition jsstring_eqb (a b : jsstring) : bool := bool_decide (a = b).

(** Reading a source literal: the file is UTF-8, the string value is UTF-16. *)
Definition bytes_of_string (s : string) : list N :=
  map N_of_ascii (list_ascii_of_string s).

Definition cont (b : N) : N := N.land b 63.

(** A code point above the Basic Multilingual Plane is a surrogate pair. *)
Definition units_of_codepoint (cp : N) : jsstring :=
  if (cp <? 65536)%N then [cp]
  else [(55296 + N.shiftr (cp - 65536) 10)%N; (56320 + N.land (cp - 65536) 1023)%N].

Fixpoint utf16_of_utf8 (bs : list N) : jsstring :=
  match bs with
  | [] => []
  | b :: t =>
      if (b <? 128)%N then b :: utf16_of_utf8 t
      else if (b <? 224)%N then
        match t with
        | b2 :: t2 =>
            (N.shiftl (N.land b 31) 6 + cont b2)%N :: utf16_of_utf8 t2
        | _ => [65533%N]
        end
      else if (b <? 240)%N then
        match t with
        | b2 :: b3 :: t3 =>
            (N.shiftl (N.land b 15) 12 + N.shiftl (cont b2) 6 + cont b3)%N
              :: utf16_of_utf8 t3
        | _ => [65533%N]
        end
      else
        match t with
        | b2 :: b3 :: b4 :: t4 =>
            units_of_codepoint
              (N.shiftl (N.land b 7) 18 + N.shiftl (cont b2) 12
               + N.shiftl (cont b3) 6 + cont b4)%N
              ++ utf16_of_utf8 t4
        | _ => [65533%N]
        end
  end.

Definition js (s : string) : jsstring := utf16_of_utf8 (bytes_of_string s).

(** WhiteSpace and LineTerminator code units, the set [trim] strips. *)
Definition isWhiteSpace (c : char16) : bool :=
  ((9 <=? c) && (c <=? 13) || (c =? 32) || (c =? 160) || (c =? 5760)
   || (8192 <=? c) && (c <=? 8202) || (c =? 8232) || (c =? 8233)
   || (c =? 8239) || (c =? 8287) || (c =? 12288) || (c =? 65279))%N.

Fixpoint trimStart (s : jsstring) : jsstring :=
  match s with
  | c :: t => if isWhiteSpace c then trimStart t else s
  | [] => []
  end.

Definition trimEnd (s : jsstring) : jsstring := rev (trimStart (rev s)).

Definition trim (s : jsstring) : jsstring := trimEnd (trimStart s).

(** [s.startsWith(p)] *)
Fixpoint startsWith (s p : jsstring) : bool :=
  match p, s with
  | [], _ => true
  | _ :: _, [] => false
  | a :: p', b :: s' => (a =? b)%N && startsWith s' p'
  end.

(** [s.includes(p)] *)
Fixpoint includes (s p : jsstring) : bool :=
  startsWith s p ||
  match s with
  | [] => false
  | _ :: s' => includes s' p
  end.

(** A number: not-a-number, an infinity, or a finite value. *)
Inductive JsNumber :=
  | NaN
  | Infinity (negative : bool)
  | Finite (q : Q).

(** Lower case of a Basic Latin code unit. *)
Definition asciiLower (c : char16) : char16 :=
  if ((65 <=? c) && (c <=? 90))%N then (c + 32)%N else c.

Definition isAscii (c : char16) : bool := (c <? 128)%N.

(** The part of the host that is table-driven.  Whatever the tables, a string
    of Basic Latin code units is lowered unit by unit. *)
Class Host := {
  toLowerCase : jsstring -> jsstring;
  (** [StringToNumber] on strings that are not a plain run of decimal digits *)
  StringToNumberOther : jsstring -> JsNumber;
  toLowerCase_ascii :
    forall s, forallb isAscii s = true -> toLowerCase s = map asciiLower s
}.

(** Lower case of one code unit for Basic Latin, Latin-1 and U+0130.  The
    latter is the one code point whose unconditional lower case is longer
    than itself: <U+0069, U+0307>. *)
Definition lowerUnit (c : char16) : jsstring :=
  if ((65 <=? c) && (c <=? 90))%N then [(c + 32)%N]
  else if ((192 <=? c) && (c <=? 222) && negb (c =? 215))%N then [(c + 32)%N]
  else if (c =? 304)%N then [105%N; 775%N]
  else [c].

Definition latin_toLowerCase (s : jsstring) : jsstring := flat_map lowerUnit s.

(** The value of a run of decimal digits; [None] when another unit occurs. *)
Fixpoint digitsValue (acc : N) (s : jsstring) : option N :=
  match s with
  | [] => Some acc
  | c :: t =>
      if ((48 <=? c) && (c <=? 57))%N then digitsValue (10 * acc + (c - 48))%N t
      else None
  end.

(** [StringToNumber] of the latin host: the StringNumericLiteral grammar, with
    exact values (no rounding, no negative zero). *)
Definition digitOf (radix c : N) : option N :=
  let d :=
    if ((48 <=? c) && (c <=? 57))%N then Some (c - 48)%N
    else if ((97 <=? c) && (c <=? 122))%N then Some (c - 87)%N
    else if ((65 <=? c) && (c <=? 90))%N then Some (c - 55)%N
    else None in
  match d with
  | Some n => if (n <? radix)%N then Some n else None
  | None => None
  end.

Fixpoint radixValue (radix acc : N) (s : jsstring) : option N :=
  match s with
  | [] => Some acc
  | c :: t =>
      match digitOf radix c with
      | Some n => radixValue radix (radix * acc + n)%N t
      | None => None
      end
  end.

Definition radixLiteral (radix : N) (s : jsstring) : JsNumber :=
  match s with
  | [] => NaN
  | _ :: _ =>
      match radixValue radix 0 s with
      | Some n => Finite (inject_Z (Z.of_N n))
      | None => NaN
      end
  end.

(** The part before the first separator, and the part after it if there is
    a separator. *)
Fixpoint splitAt (isSeparator : char16 -> bool) (s : jsstring)
  : jsstring * option jsstring :=
  match s with
  | [] => ([], None)
  | c :: t =>
      if isSeparator c then ([], Some t)
      else let '(a, b) := splitAt isSeparator t in (c :: a, b)
  end.

Definition exponentOf (part : option jsstring) : option Z :=
  match part with
  | None => Some 0%Z
  | Some [] => None
  | Some (c :: t) =>
      let '(negative, ds) :=
        if (c =? 45)%N then (true, t)
        else if (c =? 43)%N then (false, t)
        else (false, c :: t) in
      match ds with
      | [] => None
      | _ :: _ =>
          match digitsValue 0 ds with
          | Some e => Some (if negative then (- Z.of_N e)%Z else Z.of_N e)
          | None => None
          end
      end
  end.

Definition unsignedDecimal (s : jsstring) : JsNumber :=
  if bool_decide (s = js "Infinity") then Infinity false
  else
    let '(mantissa, exponent) := splitAt (fun c => (c =? 101) || (c =? 69))%N s in
    let '(whole, fraction) := splitAt (fun c => (c =? 46)%N) mantissa in
    let fraction := match fraction with Some f => f | None => [] end in
    match whole, fraction with
    | [], [] => NaN
    | _, _ =>
        match digitsValue 0 whole, digitsValue 0 fraction, exponentOf exponent with
        | Some w, Some f, Some e =>
            Finite ((inject_Z (Z.of_N w)
                     + inject_Z (Z.of_N f) / inject_Z (10 ^ Z.of_nat (length fraction)))
                    * Qpower (inject_Z 10) e)
        | _, _, _ => NaN
        end
    end.

Definition negateNumber (n : JsNumber) : JsNumber :=
  match n with
  | NaN => NaN
  | Infinity b => Infinity (negb b)
  | Finite q => Finite (- q)
  end.

Definition latin_StringToNumberOther (s : jsstring) : JsNumber :=
  match trim s with
  | [] => Finite 0
  | c :: t =>
      if (c =? 43)%N then unsignedDecimal t
      else if (c =? 45)%N then negateNumber (unsignedDecimal t)
      else
        match c, t with
        | 48%N, p :: digits =>
            if ((p =? 120) || (p =? 88))%N then radixLiteral 16 digits
            else if ((p =? 111) || (p =? 79))%N then radixLiteral 8 digits
            else if ((p =? 98) || (p =? 66))%N then radixLiteral 2 digits
            else unsignedDecimal (c :: t)
        | _, _ => unsignedDecimal (c :: t)
        end
  end.

Lemma latin_toLowerCase_ascii (s : jsstring) :
  forallb isAscii s = true -> latin_toLowerCase s = map asciiLower s.
Proof.
  unfold latin_toLowerCase.
  induction s as [|c s IH]; simpl; [reflexivity|].
  intros [Hc Hs]%andb_prop. rewrite (IH Hs). f_equal.
  unfold isAscii in Hc. apply N.ltb_lt in Hc.
  unfold lowerUnit, asciiLower.
  destruct ((65 <=? c) && (c <=? 90))%N; [reflexivity|].
  assert (H192 : (192 <=? c)%N = false) by (apply N.leb_gt; lia).
  assert (H304 : (c =? 304)%N = false) by (apply N.eqb_neq; lia).
  rewrite H192, H304. reflexivity.
Qed.

#[export] Instance latin_host : Host := {
  toLowerCase := latin_toLowerCase;
  StringToNumberOther := latin_StringToNumberOther;
  toLowerCase_ascii := latin_toLowerCase_ascii
}.

(** ** JavaScript values and objects *)

(** The values a parameter extractor yields from a match. *)
Inductive JsValue :=
  | JUndefined
  | JNull
  | JBoolean (b : bool)
  | JNumber (n : JsNumber)
  | JString (s : jsstring).

(** Own string-keyed properties, in insertion order. *)
Definition JsObject := list (jsstring * JsValue).

(** [o[k]] for a name that [Object.prototype] does not define *)
Fixpoint getProperty (o : JsObject) (k : jsstring) : JsValue :=
  match o with
  | [] => JUndefined
  | (k', v) :: o' => if jsstring_eqb k k' then v else getProperty o' k
  end.

(** [o[k] = v]: an existing property keeps its place. *)
Fixpoint setProperty (o : JsObject) (k : jsstring) (v : JsValue) : JsObject :=
  match o with
  | [] => [(k, v)]
  | (k', v') :: o' =>
      if jsstring_eqb k k' then (k, v) :: o' else (k', v') :: setProperty o' k v
  end.

Definition quote : jsstring := [34%N].
Definition newline : jsstring := [10%N].

(** ** JavaScript numbers *)

Definition Qltb (x y : Q) : bool := negb (Qle_bool y x).

(** [Math.min(x, y)] *)
Definition Math_min (x y : Q) : Q := if Qle_bool x y then x else y.

Definition Q_of_nat (n : nat) : Q := inject_Z (Z.of_nat n).

(** ** FuzzyMatcher (utils/FuzzyMatch.ts) *)

Module FuzzyMatcher.

Record FuzzyMatchResult := {
  item : jsstring;
  score : Q;
  distance : nat
}.

(** Cells [matrix[i][1..]] of one row.  [c] is [str2.charAt(i-1)], [prev] is
    row [i-1] from the column to the left of the next cell on, and [left] is
    the cell just written in row [i]. *)
Fixpoint fillRow (c : char16) (str1 : jsstring) (prev : list nat) (left : nat)
  : list nat :=
  match str1, prev with
  | c1 :: str1', diag :: ((up :: _) as prev') =>
      let cell :=
        if (c =? c1)%N then diag
        else Nat.min (diag + 1) (Nat.min (left + 1) (up + 1)) in
      cell :: fillRow c str1' prev' cell
  | _, _ => []
  end.

(** Row [i] of the matrix from row [i-1]: [matrix[i] = [i]], then the cells. *)
Definition nextRow (str1 : jsstring) (i : nat) (c : char16) (prev : list nat)
  : list nat :=
  i :: fillRow c str1 prev i.

(** Rows [i, i+1, ...] for the remaining characters of [str2]; the result is
    the last row. *)
Fixpoint fillRows (str1 str2 : jsstring) (i : nat) (prev : list nat)
  : list nat :=
  match str2 with
  | [] => prev
  | c :: str2' => fillRows str1 str2' (S i) (nextRow str1 i c prev)
  end.

(** [matrix[0][j] = j] *)
Definition firstRow (str1 : jsstring) : list nat := seq 0 (S (length str1)).

Definition levenshteinDistance (str1 str2 : jsstring) : nat :=
  nth (length str1) (fillRows str1 str2 1 (firstRow str1)) 0.

Section WithHost.
Context {host : Host}.

Definition calculateScore (input target : jsstring) : Q :=
  let distance := levenshteinDistance (toLowerCase input) (toLowerCase target) in
  let maxLength := Nat.max (length input) (length target) in
  if (maxLength =? 0)%nat then 1
  else 1 - Q_of_nat distance / Q_of_nat maxLength.

Definition containsMatch (input target : jsstring) : bool :=
  includes (toLowerCase target) (toLowerCase input).

Definition startsWithMatch (input target : jsstring) : bool :=
  startsWith (toLowerCase target) (toLowerCase input).

(** The score pushed for one candidate: base score and the two boosts. *)
Definition finalScore (normalizedInput candidate : jsstring) : Q :=
  let score := calculateScore normalizedInput candidate in
  if startsWithMatch normalizedInput candidate then Math_min 1 (score + (3 # 10))
  else if containsMatch normalizedInput candidate then Math_min 1 (score + (2 # 10))
  else score.

(** One turn of the loop over the candidates. *)
Definition pushCandidate (normalizedInput : jsstring) (minScore : Q)
  (results : list FuzzyMatchResult) (candidate : jsstring)
  : list FuzzyMatchResult :=
  let distance := levenshteinDistance normalizedInput (toLowerCase candidate) in
  let finalScore := finalScore normalizedInput candidate in
  if Qle_bool minScore finalScore then
    results ++ [{| item := candidate; score := finalScore; distance := distance |}]
  else results.

Definition collectMatches (normalizedInput : jsstring) (candidates : list jsstring)
  (minScore : Q) : list FuzzyMatchResult :=
  fold_left (pushCandidate normalizedInput minScore) candidates [].

End WithHost.

(** The comparator handed to [sort]. *)
Definition compareMatches (a b : FuzzyMatchResult) : Q :=
  if Qltb (Qabs (score a - score b)) (1 # 100) then
    Q_of_nat (distance a) - Q_of_nat (distance b)
  else score b - score a.

(** [Array.prototype.sort] is a stable comparison sort: [a] goes before [b]
    when the comparator is negative, and elements that compare as equal keep
    their order.  The model is the stable insertion sort.  For a comparator
    that is not a consistent order the language leaves the result to the
    engine. *)
Fixpoint sortInsert {A} (cmp : A -> A -> Q) (x : A) (l : list A) : list A :=
  match l with
  | [] => [x]
  | y :: l' => if Qle_bool (cmp x y) 0 then x :: l else y :: sortInsert cmp x l'
  end.

Fixpoint Array_sort {A} (cmp : A -> A -> Q) (l : list A) : list A :=
  match l with
  | [] => []
  | x :: l' => sortInsert cmp x (Array_sort cmp l')
  end.

(** [maxResults] is a count; [slice(0, n)] keeps the first [n] elements. *)
Definition findMatches {host : Host} (input : jsstring) (candidates : list jsstring)
  (maxResults : nat) (minScore : Q) : list FuzzyMatchResult :=
  match trim input with
  | [] =>
      map (fun item => {| item := item; score := 1 # 2; distance := 0 |})
          (firstn maxResults candidates)
  | _ :: _ =>
      let normalizedInput := toLowerCase (trim input) in
      let results := collectMatches normalizedInput candidates minScore in
      firstn maxResults (Array_sort compareMatches results)
  end.

Definition findBestMatch {host : Host} (input : jsstring) (candidates : list jsstring)
  (minScore : Q) : option FuzzyMatchResult :=
  match findMatches input candidates 1 minScore with
  | m :: _ => Some m
  | [] => None
  end.

End FuzzyMatcher.


(** ** BaseCommandDefinition (parser/commands/BaseCommandDefinition.ts) *)

(** [match[0]], [match[1]], ...; a group that took no part is [undefined]. *)
Definition RegExpMatchArray := list (option jsstring).

(** A pattern is given by what [text.match(pattern)] returns ([null] is
    [None]).  The patterns of a catalog are not sticky, so [match] neither
    reads nor leaves state in them. *)
Definition RegExp := jsstring -> option RegExpMatchArray.

Record CommandDefinition := {
  command : jsstring;
  patterns : list RegExp;
  description : jsstring;
  requiredParameters : list jsstring;
  optionalParameters : list jsstring;
  examples : list jsstring;
  parameterExtractors : list (jsstring * (RegExpMatchArray -> JsValue))
}.

Record ParseResult := {
  pr_command : jsstring;
  pr_parameters : JsObject;
  pr_confidence : Q;
  pr_originalText : jsstring
}.

Record BaseCommandDefinition := {
  definitions : list CommandDefinition
}.

Definition getDefinitions (this : BaseCommandDefinition) : list CommandDefinition :=
  definitions this.

(** The loop over [Object.entries(definition.parameterExtractors)]. *)
Definition extractParameters
  (extractors : list (jsstring * (RegExpMatchArray -> JsValue)))
  (m : RegExpMatchArray) : JsObject :=
  fold_left
    (fun parameters entry =>
       let '(paramName, extractor) := entry in
       match extractor m with
       | JUndefined => parameters
       | value => setProperty parameters paramName value
       end)
    extractors [].

(** The inner loop, over the patterns of one definition. *)
Fixpoint parsePatterns (definition : CommandDefinition) (pats : list RegExp)
  (text normalizedText originalText : jsstring) : option ParseResult :=
  match pats with
  | [] => None
  | pattern :: rest =>
      match pattern normalizedText with
      | Some m =>
          let originalMatch := pattern originalText in
          let used := match originalMatch with Some om => om | None => m end in
          Some {| pr_command := command definition;
                  pr_parameters :=
                    extractParameters (parameterExtractors definition) used;
                  pr_confidence := 9 # 10;
                  pr_originalText := text |}
      | None => parsePatterns definition rest text normalizedText originalText
      end
  end.

(** The outer loop, over the definitions. *)
Fixpoint parseDefinitions (defs : list CommandDefinition)
  (text normalizedText originalText : jsstring) : option ParseResult :=
  match defs with
  | [] => None
  | definition :: rest =>
      match parsePatterns definition (patterns definition)
              text normalizedText originalText with
      | Some r => Some r
      | None => parseDefinitions rest text normalizedText originalText
      end
  end.

Definition parseCommand {host : Host} (this : BaseCommandDefinition)
  (text : jsstring) : option ParseResult :=
  let normalizedText := toLowerCase (trim text) in
  let originalText := trim text in
  parseDefinitions (definitions this) text normalizedText originalText.

(** ** CommandRegistry (parser/commands/CommandRegistry.ts) *)

Inductive ErrorType :=
  | command_not_found
  | parameter_missing
  | validation_failed.

Record EnhancedError := {
  message : jsstring;
  suggestions : list jsstring;
  type : ErrorType;
  originalInput : jsstring
}.

(** An [Error] object: its message and, when one was attached, its
    [enhancedError] property. *)
Record JsError := {
  error_message : jsstring;
  error_enhancedError : option EnhancedError
}.

(** What [parseInstruction] does: return a result or throw. *)
Inductive Parsed :=
  | Returned (result : ParseResult)
  | Thrown (error : JsError).

Record CommandRegistry := {
  commandHandlers : list BaseCommandDefinition
}.

Definition registerHandler (this : CommandRegistry) (handler : BaseCommandDefinition)
  : CommandRegistry :=
  {| commandHandlers := commandHandlers this ++ [handler] |}.

(** [[...new Set(xs)]]: the distinct elements in order of first occurrence. *)
Definition Set_add (set : list jsstring) (x : jsstring) : list jsstring :=
  if existsb (jsstring_eqb x) set then set else set ++ [x].

Definition Set_of (xs : list jsstring) : list jsstring := fold_left Set_add xs [].

(** [xs.join(sep)] *)
Fixpoint join (xs : list jsstring) (sep : jsstring) : jsstring :=
  match xs with
  | [] => []
  | [x] => x
  | x :: rest => x ++ sep ++ join rest sep
  end.

(** The two arrays filled by the nested loops of [generateEnhancedError]. *)
Definition collectCandidates (handlers : list BaseCommandDefinition)
  : list jsstring * list jsstring :=
  fold_left
    (fun acc handler =>
       fold_left
         (fun acc definition =>
            let '(allCommands, allExamples) := acc in
            (allCommands ++ [command definition],
             allExamples ++ examples definition))
         (getDefinitions handler) acc)
    handlers ([], []).

Section Registry.
Context {host : Host}.

Definition generateEnhancedError (this : CommandRegistry) (text : jsstring)
  : EnhancedError :=
  let '(allCommands, allExamples) := collectCandidates (commandHandlers this) in
  let commandSuggestions :=
    map FuzzyMatcher.item (FuzzyMatcher.findMatches text allCommands 3 (3 # 10)) in
  let exampleSuggestions :=
    map FuzzyMatcher.item (FuzzyMatcher.findMatches text allExamples 3 (2 # 10)) in
  let suggestions :=
    firstn 5 (Set_of (commandSuggestions ++ exampleSuggestions)) in
  let message := js "Could not understand the instruction: " ++ quote ++ text ++ quote in
  let message :=
    match suggestions with
    | _ :: _ =>
        message ++ newline ++ newline ++ js "Did you mean one of these?" ++ newline
        ++ join (map (fun s => js "• " ++ s) suggestions) newline
    | [] =>
        message ++ newline ++ newline ++ js "Try using " ++ quote ++ js "help"
        ++ quote ++ js " to see available commands or " ++ quote
        ++ js "help <category>" ++ quote ++ js " for specific command groups."
    end in
  {| message := message;
     suggestions := suggestions;
     type := command_not_found;
     originalInput := text |}.

(** The loop over the handlers; [None] when it runs to its end. *)
Fixpoint parseHandlers (handlers : list BaseCommandDefinition) (text : jsstring)
  : option ParseResult :=
  match handlers with
  | [] => None
  | handler :: rest =>
      match parseCommand handler text with
      | Some result => Some result
      | None => parseHandlers rest text
      end
  end.

Definition parseInstruction (this : CommandRegistry) (text : jsstring) : Parsed :=
  match parseHandlers (commandHandlers this) text with
  | Some result => Returned result
  | None =>
      let enhancedError := generateEnhancedError this text in
      Thrown {| error_message := message enhancedError;
                error_enhancedError := Some enhancedError |}
  end.

Definition suggestCompletions (this : CommandRegistry) (partialText : jsstring)
  : list jsstring :=
  let normalizedPartial := toLowerCase (trim partialText) in
  match normalizedPartial with
  | [] =>
      [js "create session"; js "list simulators"; js "install app";
       js "launch app"; js "terminate session"]
  | _ :: _ =>
      let allCandidates :=
        flat_map
          (fun handler =>
             flat_map (fun definition => command definition :: examples definition)
                      (getDefinitions handler))
          (commandHandlers this) in
      map FuzzyMatcher.item (FuzzyMatcher.findMatches partialText allCandidates 5 (3 # 10))
  end.

End Registry.

(** ** CommandType (orchestrator/interfaces/IOrchestratorCommand.ts) *)

Inductive CommandType :=
  | CREATE_SIMULATOR_SESSION
  | TERMINATE_SIMULATOR_SESSION
  | LIST_AVAILABLE_SIMULATORS
  | LIST_BOOTED_SIMULATORS
  | BOOT_SIMULATOR
  | SHUTDOWN_SIMULATOR
  | INSTALL_APP
  | LAUNCH_APP
  | TERMINATE_APP
  | UNINSTALL_APP
  | LIST_APPS
  | TAP
  | SWIPE
  | PRESS_DEVICE_BUTTON
  | INPUT_TEXT
  | PRESS_KEY
  | PRESS_KEY_SEQUENCE
  | DESCRIBE_ELEMENTS
  | DESCRIBE_POINT
  | TAKE_SCREENSHOT
  | CAPTURE_SCREEN
  | RECORD_VIDEO
  | STOP_RECORDING
  | GET_SYSTEM_LOGS
  | GET_APP_LOGS
  | GET_LOGS
  | START_DEBUG
  | STOP_DEBUG
  | DEBUG_STATUS
  | LIST_CRASH_LOGS
  | SHOW_CRASH_LOG
  | DELETE_CRASH_LOGS
  | INSTALL_DYLIB
  | OPEN_URL
  | CLEAR_KEYCHAIN
  | SET_LOCATION
  | ADD_MEDIA
  | APPROVE_PERMISSIONS
  | UPDATE_CONTACTS
  | FOCUS_SIMULATOR
  | IS_SIMULATOR_BOOTED
  | IS_APP_INSTALLED
  | SEQUENCE
  | CONDITIONAL.

#[export] Instance CommandType_eq_dec : EqDecision CommandType.
Proof. solve_decision. Defined.

(** The string each member of the enumeration stands for. *)
Definition CommandType_value (t : CommandType) : jsstring :=
  match t with
  | CREATE_SIMULATOR_SESSION => js "createSimulatorSession"
  | TERMINATE_SIMULATOR_SESSION => js "terminateSimulatorSession"
  | LIST_AVAILABLE_SIMULATORS => js "listAvailableSimulators"
  | LIST_BOOTED_SIMULATORS => js "listBootedSimulators"
  | BOOT_SIMULATOR => js "bootSimulator"
  | SHUTDOWN_SIMULATOR => js "shutdownSimulator"
  | INSTALL_APP => js "installApp"
  | LAUNCH_APP => js "launchApp"
  | TERMINATE_APP => js "terminateApp"
  | UNINSTALL_APP => js "uninstallApp"
  | LIST_APPS => js "listApps"
  | TAP => js "tap"
  | SWIPE => js "swipe"
  | PRESS_DEVICE_BUTTON => js "pressDeviceButton"
  | INPUT_TEXT => js "inputText"
  | PRESS_KEY => js "pressKey"
  | PRESS_KEY_SEQUENCE => js "pressKeySequence"
  | DESCRIBE_ELEMENTS => js "describeElements"
  | DESCRIBE_POINT => js "describePoint"
  | TAKE_SCREENSHOT => js "takeScreenshot"
  | CAPTURE_SCREEN => js "captureScreen"
  | RECORD_VIDEO => js "recordVideo"
  | STOP_RECORDING => js "stopRecording"
  | GET_SYSTEM_LOGS => js "getSystemLogs"
  | GET_APP_LOGS => js "getAppLogs"
  | GET_LOGS => js "getLogs"
  | START_DEBUG => js "startDebug"
  | STOP_DEBUG => js "stopDebug"
  | DEBUG_STATUS => js "debugStatus"
  | LIST_CRASH_LOGS => js "listCrashLogs"
  | SHOW_CRASH_LOG => js "showCrashLog"
  | DELETE_CRASH_LOGS => js "deleteCrashLogs"
  | INSTALL_DYLIB => js "installDylib"
  | OPEN_URL => js "openUrl"
  | CLEAR_KEYCHAIN => js "clearKeychain"
  | SET_LOCATION => js "setLocation"
  | ADD_MEDIA => js "addMedia"
  | APPROVE_PERMISSIONS => js "approvePermissions"
  | UPDATE_CONTACTS => js "updateContacts"
  | FOCUS_SIMULATOR => js "focusSimulator"
  | IS_SIMULATOR_BOOTED => js "isSimulatorBooted"
  | IS_APP_INSTALLED => js "isAppInstalled"
  | SEQUENCE => js "sequence"
  | CONDITIONAL => js "conditional"
  end.

(** ** ParserToOrchestrator (adapters/ParserToOrchestrator.ts) *)

Record ParserToOrchestrator := {
  commandMappings : list (jsstring * CommandType)
}.

(** The object literal of the constructor, in the order it is written. *)
Definition commandMappings_literal : list (jsstring * CommandType) :=
  [  (js "crear sesión", CREATE_SIMULATOR_SESSION);
   (js "crear simulador", CREATE_SIMULATOR_SESSION);
   (js "iniciar simulador", CREATE_SIMULATOR_SESSION);
   (js "terminar sesión", TERMINATE_SIMULATOR_SESSION);
   (js "cerrar simulador", TERMINATE_SIMULATOR_SESSION);
   (js "listar simuladores", LIST_AVAILABLE_SIMULATORS);
   (js "mostrar simuladores", LIST_AVAILABLE_SIMULATORS);
   (js "listar simuladores arrancados", LIST_BOOTED_SIMULATORS);
   (js "arrancar simulador", BOOT_SIMULATOR);
   (js "apagar simulador", SHUTDOWN_SIMULATOR);
   (js "create session", CREATE_SIMULATOR_SESSION);
   (js "start simulator", CREATE_SIMULATOR_SESSION);
   (js "launch simulator", CREATE_SIMULATOR_SESSION);
   (js "end session", TERMINATE_SIMULATOR_SESSION);
   (js "terminate session", TERMINATE_SIMULATOR_SESSION);
   (js "close simulator", TERMINATE_SIMULATOR_SESSION);
   (js "list simulators", LIST_AVAILABLE_SIMULATORS);
   (js "show simulators", LIST_AVAILABLE_SIMULATORS);
   (js "list booted simulators", LIST_BOOTED_SIMULATORS);
   (js "show running simulators", LIST_BOOTED_SIMULATORS);
   (js "boot simulator", BOOT_SIMULATOR);
   (js "shutdown simulator", SHUTDOWN_SIMULATOR);
   (js "instalar app", INSTALL_APP);
   (js "instalar aplicación", INSTALL_APP);
   (js "lanzar app", LAUNCH_APP);
   (js "abrir app", LAUNCH_APP);
   (js "iniciar app", LAUNCH_APP);
   (js "cerrar app", TERMINATE_APP);
   (js "terminar app", TERMINATE_APP);
   (js "desinstalar app", UNINSTALL_APP);
   (js "eliminar app", UNINSTALL_APP);
   (js "borrar app", UNINSTALL_APP);
   (js "listar apps", LIST_APPS);
   (js "mostrar apps", LIST_APPS);
   (js "install app", INSTALL_APP);
   (js "launch app", LAUNCH_APP);
   (js "terminate app", TERMINATE_APP);
   (js "uninstall app", UNINSTALL_APP);
   (js "remove app", UNINSTALL_APP);
   (js "delete app", UNINSTALL_APP);
   (js "list apps", LIST_APPS);
   (js "show apps", LIST_APPS);
   (js "tocar", TAP);
   (js "pulsar", TAP);
   (js "deslizar", SWIPE);
   (js "tap", TAP);
   (js "swipe", SWIPE);
   (js "press device button", PRESS_DEVICE_BUTTON);
   (js "input text", INPUT_TEXT);
   (js "press key", PRESS_KEY);
   (js "press key sequence", PRESS_KEY_SEQUENCE);
   (js "describir elementos", DESCRIBE_ELEMENTS);
   (js "describir todos los elementos", DESCRIBE_ELEMENTS);
   (js "describir punto", DESCRIBE_POINT);
   (js "describe elements", DESCRIBE_ELEMENTS);
   (js "describe all elements", DESCRIBE_ELEMENTS);
   (js "describe point", DESCRIBE_POINT);
   (js "capturar pantalla", CAPTURE_SCREEN);
   (js "captura", CAPTURE_SCREEN);
   (js "logs del sistema", GET_SYSTEM_LOGS);
   (js "logs de app", GET_APP_LOGS);
   (js "grabar video", RECORD_VIDEO);
   (js "detener grabación", STOP_RECORDING);
   (js "take screenshot", CAPTURE_SCREEN);
   (js "capture screen", CAPTURE_SCREEN);
   (js "screenshot", CAPTURE_SCREEN);
   (js "logs", GET_LOGS);
   (js "get logs", GET_LOGS);
   (js "record video", RECORD_VIDEO);
   (js "stop recording", STOP_RECORDING);
   (js "iniciar debug", START_DEBUG);
   (js "parar debug", STOP_DEBUG);
   (js "estado debug", DEBUG_STATUS);
   (js "listar crash logs", LIST_CRASH_LOGS);
   (js "mostrar crash log", SHOW_CRASH_LOG);
   (js "eliminar crash logs", DELETE_CRASH_LOGS);
   (js "start debug", START_DEBUG);
   (js "stop debug", STOP_DEBUG);
   (js "debug status", DEBUG_STATUS);
   (js "list crash logs", LIST_CRASH_LOGS);
   (js "show crash log", SHOW_CRASH_LOG);
   (js "delete crash logs", DELETE_CRASH_LOGS);
   (js "instalar dylib", INSTALL_DYLIB);
   (js "abrir url", OPEN_URL);
   (js "limpiar keychain", CLEAR_KEYCHAIN);
   (js "establecer ubicación", SET_LOCATION);
   (js "añadir media", ADD_MEDIA);
   (js "aprobar permisos", APPROVE_PERMISSIONS);
   (js "actualizar contactos", UPDATE_CONTACTS);
   (js "enfocar simulador", FOCUS_SIMULATOR);
   (js "install dylib", INSTALL_DYLIB);
   (js "open url", OPEN_URL);
   (js "clear keychain", CLEAR_KEYCHAIN);
   (js "set location", SET_LOCATION);
   (js "add media", ADD_MEDIA);
   (js "approve permissions", APPROVE_PERMISSIONS);
   (js "update contacts", UPDATE_CONTACTS);
   (js "focus simulator", FOCUS_SIMULATOR);
   (js "verificar simulador", IS_SIMULATOR_BOOTED);
   (js "comprobar simulador", IS_SIMULATOR_BOOTED);
   (js "verificar app", IS_APP_INSTALLED);
   (js "comprobar app", IS_APP_INSTALLED)].

Definition new_ParserToOrchestrator : ParserToOrchestrator :=
  {| commandMappings := commandMappings_literal |}.

(** Property names every object literal inherits from [Object.prototype];
    each of them reads as a function or an object, hence as a truthy value. *)
Definition objectPrototypeNames : list jsstring :=
  [js "constructor"; js "__defineGetter__"; js "__defineSetter__";
   js "hasOwnProperty"; js "__lookupGetter__"; js "__lookupSetter__";
   js "isPrototypeOf"; js "propertyIsEnumerable"; js "toString"; js "valueOf";
   js "__proto__"; js "toLocaleString"].

(** What the property read [this.commandMappings[key]] finds. *)
Inductive PropertyRead :=
  | Own (value : CommandType)
  | Inherited (name : jsstring)
  | Missing.

Fixpoint ownProperty (entries : list (jsstring * CommandType)) (key : jsstring)
  : option CommandType :=
  match entries with
  | [] => None
  | (k, value) :: rest => if jsstring_eqb key k then Some value else ownProperty rest key
  end.

Definition readMapping (this : ParserToOrchestrator) (key : jsstring) : PropertyRead :=
  match ownProperty (commandMappings this) key with
  | Some value => Own value
  | None =>
      if existsb (jsstring_eqb key) objectPrototypeNames then Inherited key
      else Missing
  end.

(** The loop over [Object.entries(this.commandMappings)]. *)
Fixpoint partialMatch (entries : list (jsstring * CommandType)) (lowerCommand : jsstring)
  : option (jsstring * CommandType) :=
  match entries with
  | [] => None
  | (key, value) :: rest =>
      if includes lowerCommand key then Some (key, value)
      else partialMatch rest lowerCommand
  end.

(** What [mapToCommandType] does: return a member of the enumeration, return
    the inherited property it read, or throw. *)
Inductive Mapped :=
  | Returns (value : CommandType)
  | ReturnsInherited (name : jsstring)
  | Throws (error : JsError).

Definition mapToCommandType {host : Host} (this : ParserToOrchestrator)
  (naturalCommand : jsstring) : Mapped :=
  let lowerCommand := toLowerCase naturalCommand in
  let partialOrThrow :=
    match partialMatch (commandMappings this) lowerCommand with
    | Some (_, value) => Returns value
    | None =>
        Throws {| error_message :=
                    js "Could not map command " ++ quote ++ naturalCommand ++ quote
                    ++ js " to a CommandType";
                  error_enhancedError := None |}
    end in
  match readMapping this lowerCommand with
  | Own value =>
      match CommandType_value value with
      | [] => partialOrThrow
      | _ :: _ => Returns value
      end
  | Inherited name => ReturnsInherited name
  | Missing => partialOrThrow
  end.

(** *** Parameter objects on the heap *)

Definition loc := positive.
Abbreviation Heap := (gmap loc JsObject).

(** Heap-passing computations. *)
Definition M (A : Type) : Type := Heap -> A * Heap.

Definition ret {A} (a : A) : M A := fun h => (a, h).

Definition bind {A B} (m : M A) (k : A -> M B) : M B :=
  fun h => let '(a, h') := m h in k a h'.

Notation "x <- m ;; k" := (bind m (fun x => k))
  (at level 100, m at next level, right associativity).
Notation "m ;; k" := (bind m (fun _ => k))
  (at level 100, right associativity).

(** [{ ...source }]: a new object with the own properties of [source]. *)
Definition spread (source : loc) : M loc :=
  fun h =>
    let properties := match h !! source with Some o => o | None => [] end in
    let l := fresh (dom h) in
    (l, <[l := properties]> h).

(** [object.name] *)
Definition readProperty (object : loc) (name : jsstring) : M JsValue :=
  fun h =>
    (match h !! object with Some o => getProperty o name | None => JUndefined end, h).

(** [object.name = value] *)
Definition writeProperty (object : loc) (name : jsstring) (value : JsValue) : M unit :=
  fun h => (tt, alter (fun o => setProperty o name value) object h).

Section Coercion.
Context {host : Host}.

Definition StringToNumber (s : jsstring) : JsNumber :=
  match s with
  | [] => StringToNumberOther s
  | _ :: _ =>
      match digitsValue 0 s with
      | Some n => Finite (inject_Z (Z.of_N n))
      | None => StringToNumberOther s
      end
  end.

(** [Number(value)] *)
Definition ToNumber (value : JsValue) : JsNumber :=
  match value with
  | JUndefined => NaN
  | JNull => Finite 0
  | JBoolean b => Finite (if b then 1 else 0)
  | JNumber n => n
  | JString s => StringToNumber s
  end.

(** [if (parameters.name !== undefined) parameters.name = Number(parameters.name)] *)
Definition numberIfDefined (parameters : loc) (name : jsstring) : M unit :=
  value <- readProperty parameters name ;;
  match value with
  | JUndefined => ret tt
  | _ => writeProperty parameters name (JNumber (ToNumber value))
  end.

Definition convertParameters (commandType : CommandType) (parserParameters : loc)
  : M loc :=
  parameters <- spread parserParameters ;;
  match commandType with
  | TAP =>
      numberIfDefined parameters (js "x") ;;
      numberIfDefined parameters (js "y")
  | SWIPE =>
      numberIfDefined parameters (js "startX") ;;
      numberIfDefined parameters (js "startY") ;;
      numberIfDefined parameters (js "endX") ;;
      numberIfDefined parameters (js "endY") ;;
      numberIfDefined parameters (js "duration")
  | CREATE_SIMULATOR_SESSION =>
      autoboot <- readProperty parameters (js "autoboot") ;;
      match autoboot with
      | JString s =>
          writeProperty parameters (js "autoboot")
            (JBoolean (jsstring_eqb (toLowerCase s) (js "true")))
      | _ => ret tt
      end
  | _ => ret tt
  end ;;
  ret parameters.

End Coercion.


(** ** Vocabulary of the statements *)




(** The entry the blank-input branch makes of a candidate. *)
Definition defaultEntry (candidate : jsstring) : FuzzyMatcher.FuzzyMatchResult :=
  {| FuzzyMatcher.item := candidate;
     FuzzyMatcher.score := 1 # 2;
     FuzzyMatcher.distance := 0 |}.

(** The definitions of a registry in registration order, then declaration
    order, and their patterns in declaration order. *)
Definition orderedDefinitions (this : CommandRegistry) : list CommandDefinition :=
  flat_map definitions (commandHandlers this).

Definition patternsOf (defs : list CommandDefinition)
  : list (CommandDefinition * RegExp) :=
  flat_map (fun d => map (fun p => (d, p)) (patterns d)) defs.

Definition orderedPatterns (this : CommandRegistry)
  : list (CommandDefinition * RegExp) :=
  patternsOf (orderedDefinitions this).

Definition matchesText (pattern : RegExp) (s : jsstring) : bool :=
  match pattern s with Some _ => true | None => false end.

(** The first pattern, in that order, that matches the trimmed lower-cased
    text, with the definition it belongs to. *)
Definition firstMatching {host : Host} (this : CommandRegistry) (text : jsstring)
  : option (CommandDefinition * RegExp) :=
  find (fun dp => matchesText (snd dp) (toLowerCase (trim text)))
       (orderedPatterns this).

(** The match the extractors are run on: that of the trimmed text where the
    pattern matches it too, else that of the lower-cased text. *)
Definition casePreservingMatch (pattern : RegExp)
  (normalizedText originalText : jsstring) : RegExpMatchArray :=
  match pattern originalText with
  | Some originalMatch => originalMatch
  | None => match pattern normalizedText with Some m => m | None => [] end
  end.

(** What [parseCommand] returns when [pattern] of [definition] wins. *)
Definition resultOf {host : Host} (definition : CommandDefinition) (pattern : RegExp)
  (text : jsstring) : ParseResult :=
  {| pr_command := command definition;
     pr_parameters :=
       extractParameters (parameterExtractors definition)
         (casePreservingMatch pattern (toLowerCase (trim text)) (trim text));
     pr_confidence := 9 # 10;
     pr_originalText := text |}.

Definition allCommands (this : CommandRegistry) : list jsstring :=
  map command (orderedDefinitions this).

Definition allExamples (this : CommandRegistry) : list jsstring :=
  flat_map examples (orderedDefinitions this).

Definition member (x : jsstring) (xs : list jsstring) : bool :=
  existsb (jsstring_eqb x) xs.

(** The distinct strings of a list, each at its first occurrence. *)
Fixpoint dedupe (xs : list jsstring) : list jsstring :=
  match xs with
  | [] => []
  | x :: rest => x :: List.filter (fun y => negb (jsstring_eqb y x)) (dedupe rest)
  end.




Definition instructionLine (text : jsstring) : jsstring :=
  js "Could not understand the instruction: " ++ quote ++ text ++ quote.


Definition bulletList (suggestions : list jsstring) : jsstring :=
  js "Did you mean one of these?" ++ newline
  ++ join (map (fun s => js "• " ++ s) suggestions) newline.

(** [key] is one of the keys of the table. *)
Definition isKey (this : ParserToOrchestrator) (key : jsstring) : bool :=
  existsb (fun entry => jsstring_eqb (fst entry) key) (commandMappings this).

(** The first entry of the table, in insertion order, whose key is a
    substring of the lower-cased command. *)
Definition firstSubstringEntry (this : ParserToOrchestrator) (lowerCommand : jsstring)
  : option (jsstring * CommandType) :=
  find (fun entry => includes lowerCommand (fst entry)) (commandMappings this).

Definition mappingErrorMessage (naturalCommand : jsstring) : jsstring :=
  js "Could not map command " ++ quote ++ naturalCommand ++ quote
  ++ js " to a CommandType".

(** The parameters [convertParameters] turns into numbers. *)
Definition numericParameters (t : CommandType) : list jsstring :=
  match t with
  | TAP => [js "x"; js "y"]
  | SWIPE => [js "startX"; js "startY"; js "endX"; js "endY"; js "duration"]
  | _ => []
  end.


(** What the conversions make of one property value. *)
Definition numberOf {host : Host} (value : JsValue) : JsValue :=
  match value with
  | JUndefined => JUndefined
  | _ => JNumber (ToNumber value)
  end.

Definition booleanOf {host : Host} (value : JsValue) : JsValue :=
  match value with
  | JString s => JBoolean (jsstring_eqb (toLowerCase s) (js "true"))
  | _ => value
  end.

(** The conversions on the properties of the copy. *)
Definition numberProperty {host : Host} (o : JsObject) (name : jsstring) : JsObject :=
  match getProperty o name with
  | JUndefined => o
  | value => setProperty o name (JNumber (ToNumber value))
  end.

Definition booleanProperty {host : Host} (o : JsObject) (name : jsstring) : JsObject :=
  match getProperty o name with
  | JString s => setProperty o name (JBoolean (jsstring_eqb (toLowerCase s) (js "true")))
  | _ => o
  end.

Definition convertObject {host : Host} (t : CommandType) (o : JsObject) : JsObject :=
  match t with
  | CREATE_SIMULATOR_SESSION => booleanProperty o (js "autoboot")
  | _ => fold_left numberProperty (numericParameters t) o
  end.

(** ** Sample patterns and a sample registry *)

(** A pattern that matches the whole text against a literal. *)
Definition exactly (literal : jsstring) : RegExp :=
  fun text => if jsstring_eqb text literal then Some [Some text] else None.

(** A pattern that matches a literal head and captures what follows it. *)
Definition headThenRest (head : jsstring) : RegExp :=
  fun text =>
    if startsWith text head then Some [Some text; Some (skipn (length head) text)]
    else None.

Definition group (n : nat) (m : RegExpMatchArray) : JsValue :=
  match nth n m None with
  | Some s => JString s
  | None => JUndefined
  end.

Definition openUrlDefinition : CommandDefinition :=
  {| command := js "open url";
     patterns := [headThenRest (js "open url "); headThenRest (js "abrir url ")];
     description := js "Opens a URL in the simulator";
     requiredParameters := [js "url"];
     optionalParameters := [];
     examples := [js "open url https://Example.com"; js "abrir url https://example.com"];
     parameterExtractors := [(js "url", group 1)] |}.

Definition listSimulatorsDefinition : CommandDefinition :=
  {| command := js "list simulators";
     patterns := [exactly (js "list simulators"); exactly (js "listar simuladores")];
     description := js "Lists the available simulators";
     requiredParameters := [];
     optionalParameters := [];
     examples := [js "list simulators"; js "listar simuladores"];
     parameterExtractors := [] |}.

(** A definition whose example none of its patterns matches. *)
Definition pressHomeDefinition : CommandDefinition :=
  {| command := js "press home";
     patterns := [exactly (js "press home")];
     description := js "Presses the home button";
     requiredParameters := [];
     optionalParameters := [];
     examples := [js "push the home button"];
     parameterExtractors := [] |}.

Definition sampleRegistry : CommandRegistry :=
  registerHandler
    (registerHandler {| commandHandlers := [] |}
       {| definitions := [openUrlDefinition] |})
    {| definitions := [listSimulatorsDefinition; pressHomeDefinition] |}.

(** A heap with one parameter object, as a parse result holds it. *)
Definition tapParameters : JsObject :=
  [(js "x", JString (js "10")); (js "y", JString (js "20"))].

Definition sessionParameters : JsObject :=
  [(js "deviceName", JString (js "iPhone 15")); (js "autoboot", JString (js "false"))].

Definition heapWith (o : JsObject) : Heap := <[1%positive := o]> ∅.

(** ** The matrix of [levenshteinDistance], cell by cell *)

(** The value the two loops leave in [matrix[i][j]]: the first row and the
    first column hold the indices, every other cell is the diagonal
    neighbour where the characters agree and one more than the least of the
    three neighbours where they differ. *)
Fixpoint matrixCell (str1 str2 : jsstring) (i j : nat) {struct i} : nat :=
  match i with
  | 0 => j
  | S i' =>
      (fix row (j : nat) : nat :=
         match j with
         | 0 => S i'
         | S j' =>
             if (nth i' str2 0 =? nth j' str1 0)%N then matrixCell str1 str2 i' j'
             else Nat.min (matrixCell str1 str2 i' j' + 1)
                          (Nat.min (row j' + 1) (matrixCell str1 str2 i' (S j') + 1))
         end) j
  end.

(** The entry [findMatches] pushes for a candidate, and the test it makes. *)
Definition scoredEntry {host : Host} (normalizedInput candidate : jsstring)
  : FuzzyMatcher.FuzzyMatchResult :=
  {| FuzzyMatcher.item := candidate;
     FuzzyMatcher.score := FuzzyMatcher.finalScore normalizedInput candidate;
     FuzzyMatcher.distance :=
       FuzzyMatcher.levenshteinDistance normalizedInput (toLowerCase candidate) |}.

Definition reachesThreshold {host : Host} (normalizedInput : jsstring) (minScore : Q)
  (candidate : jsstring) : bool :=
  Qle_bool minScore (FuzzyMatcher.finalScore normalizedInput candidate).

(** [key] contains the key of an entry that comes before it in the table. *)
Fixpoint containsEarlierKey (entries : list (jsstring * CommandType)) (key : jsstring)
  : bool :=
  match entries with
  | [] => false
  | (k, _) :: rest =>
      if jsstring_eqb key k then false
      else includes key k || containsEarlierKey rest key
  end.


(** ** HelpSystem (help/HelpSystem.ts) *)

(** [String(n)] for a length *)
Fixpoint units_of_uint (d : Decimal.uint) : jsstring :=
  match d with
  | Decimal.Nil => []
  | Decimal.D0 d => 48%N :: units_of_uint d
  | Decimal.D1 d => 49%N :: units_of_uint d
  | Decimal.D2 d => 50%N :: units_of_uint d
  | Decimal.D3 d => 51%N :: units_of_uint d
  | Decimal.D4 d => 52%N :: units_of_uint d
  | Decimal.D5 d => 53%N :: units_of_uint d
  | Decimal.D6 d => 54%N :: units_of_uint d
  | Decimal.D7 d => 55%N :: units_of_uint d
  | Decimal.D8 d => 56%N :: units_of_uint d
  | Decimal.D9 d => 57%N :: units_of_uint d
  end.

Definition String_of_nat (n : nat) : jsstring := units_of_uint (Nat.to_uint n).

Module HelpSystem.

Record CommandCategory := {
  category_name : jsstring;
  category_description : jsstring;
  category_icon : jsstring;
  category_commands : list jsstring
}.

(** One element of [HelpResponse.commands]. *)
Record HelpEntry := {
  entry_command : jsstring;
  entry_description : jsstring;
  entry_examples : list jsstring;
  entry_requiredParameters : list jsstring;
  entry_optionalParameters : list jsstring
}.

(** Every field is optional; an absent field is [None]. *)
Record HelpResponse := {
  response_category : option jsstring;
  response_commands : option (list HelpEntry);
  response_suggestions : option (list jsstring);
  response_categories : option (list CommandCategory);
  response_message : option jsstring
}.

Record HelpSystem := {
  commandDefinitions : list CommandDefinition
}.

Definition categories : list CommandCategory :=
  [ {| category_name := js "simulator";
       category_description := js "Create, manage, and control iOS simulators";
       category_icon := js "📱";
       category_commands :=
         [js "create session"; js "terminate session"; js "list simulators";
          js "list booted simulators"; js "boot simulator"; js "shutdown simulator";
          js "focus simulator"] |};
    {| category_name := js "app";
       category_description := js "Install, launch, and manage applications";
       category_icon := js "📱";
       category_commands :=
         [js "install app"; js "launch app"; js "terminate app"; js "uninstall app";
          js "list apps"; js "check app installed"] |};
    {| category_name := js "ui";
       category_description := js "Interact with the simulator UI";
       category_icon := js "🖱️";
       category_commands :=
         [js "tap"; js "swipe"; js "press button"; js "input text"; js "press key";
          js "press key sequence"] |};
    {| category_name := js "accessibility";
       category_description := js "Access UI elements for testing";
       category_icon := js "♿";
       category_commands := [js "describe elements"; js "describe point"] |};
    {| category_name := js "capture";
       category_description := js "Take screenshots and record videos";
       category_icon := js "📸";
       category_commands :=
         [js "take screenshot"; js "record video"; js "stop recording"; js "get logs"] |};
    {| category_name := js "debug";
       category_description := js "Debug applications and analyze issues";
       category_icon := js "🐛";
       category_commands :=
         [js "start debug"; js "stop debug"; js "debug status"; js "list crash logs";
          js "show crash log"; js "delete crash logs"] |};
    {| category_name := js "misc";
       category_description := js "Additional utilities and advanced features";
       category_icon := js "🔧";
       category_commands :=
         [js "install dylib"; js "open url"; js "clear keychain"; js "set location";
          js "add media"; js "approve permissions"; js "update contacts"] |} ].

Definition setCommandDefinitions (this : HelpSystem)
  (defs : list CommandDefinition) : HelpSystem :=
  {| commandDefinitions := defs |}.

Definition getPopularCommands : list jsstring :=
  [js "create session"; js "list simulators"; js "install app"; js "launch app";
   js "tap"; js "take screenshot"].

Definition getCategories : HelpResponse :=
  {| response_category := None;
     response_commands := None;
     response_suggestions := None;
     response_categories := Some categories;
     response_message :=
       Some (js "Available command categories. Use " ++ quote ++ js "help <category>"
             ++ quote ++ js " for detailed commands in that category.") |}.

(** The object made of a definition, with its first [examplesShown] examples. *)
Definition entryOf (examplesShown : option nat) (def : CommandDefinition) : HelpEntry :=
  {| entry_command := command def;
     entry_description := description def;
     entry_examples :=
       match examplesShown with
       | Some n => firstn n (examples def)
       | None => examples def
       end;
     entry_requiredParameters := requiredParameters def;
     entry_optionalParameters := optionalParameters def |}.

Section WithHost.
Context {host : Host}.

Definition getCategoryHelp (this : HelpSystem) (categoryName : jsstring) : HelpResponse :=
  match find (fun cat =>
                jsstring_eqb (toLowerCase (category_name cat)) (toLowerCase categoryName))
             categories with
  | None =>
      let suggestions :=
        map FuzzyMatcher.item
            (FuzzyMatcher.findMatches categoryName (map category_name categories)
               3 (4 # 10)) in
      {| response_category := None;
         response_commands := None;
         response_suggestions :=
           Some (match suggestions with
                 | _ :: _ => suggestions
                 | [] => map category_name categories
                 end);
         response_categories := None;
         response_message :=
           Some (js "Category " ++ quote ++ categoryName ++ quote ++ js " not found.") |}
  | Some category =>
      let commands :=
        map (entryOf (Some 2))
            (List.filter (fun def => member (command def) (category_commands category))
                         (commandDefinitions this)) in
      {| response_category := Some (category_name category);
         response_commands := Some commands;
         response_suggestions := None;
         response_categories := None;
         response_message :=
           Some (category_icon category ++ js " " ++ category_description category) |}
  end.

Definition getCommandHelp (this : HelpSystem) (commandName : jsstring) : HelpResponse :=
  match find (fun def =>
                jsstring_eqb (toLowerCase (command def)) (toLowerCase commandName))
             (commandDefinitions this) with
  | None =>
      let allCommands := map command (commandDefinitions this) in
      let suggestions :=
        map FuzzyMatcher.item
            (FuzzyMatcher.findMatches commandName allCommands 5 (3 # 10)) in
      {| response_category := None;
         response_commands := None;
         response_suggestions :=
           Some (match suggestions with
                 | _ :: _ => suggestions
                 | [] => getPopularCommands
                 end);
         response_categories := None;
         response_message :=
           Some (js "Command " ++ quote ++ commandName ++ quote ++ js " not found.") |}
  | Some definition =>
      {| response_category := None;
         response_commands := Some [entryOf None definition];
         response_suggestions := None;
         response_categories := None;
         response_message :=
           Some (js "Detailed help for " ++ quote ++ command definition ++ quote) |}
  end.

(** What a method does: return a response, or fail with a [TypeError] on
    reading a property of [undefined]. *)
Inductive Outcome :=
  | Responds (response : HelpResponse)
  | ThrowsTypeError.

(** [names.map(name => defs.find(def => def.command === name)!)] followed by
    the [map] that reads the properties of each element: [None] as soon as
    one [find] comes back [undefined]. *)
Fixpoint entriesNamed (defs : list CommandDefinition) (names : list jsstring)
  : option (list HelpEntry) :=
  match names with
  | [] => Some []
  | commandName :: rest =>
      match find (fun def => jsstring_eqb (command def) commandName) defs,
            entriesNamed defs rest with
      | Some def, Some entries => Some (entryOf (Some 1) def :: entries)
      | _, _ => None
      end
  end.

Definition searchCommands (this : HelpSystem) (query : jsstring) : Outcome :=
  match trim query with
  | [] =>
      Responds
        {| response_category := None;
           response_commands := None;
           response_suggestions := Some getPopularCommands;
           response_categories := None;
           response_message := Some (js "Please provide a search term.") |}
  | _ :: _ =>
      let allCommands := map command (commandDefinitions this) in
      let commandMatches := FuzzyMatcher.findMatches query allCommands 10 (2 # 10) in
      let descriptionMatches :=
        map command
            (List.filter
               (fun def =>
                  includes (toLowerCase (description def)) (toLowerCase query)
                  || existsb (fun example =>
                                includes (toLowerCase example) (toLowerCase query))
                             (examples def))
               (commandDefinitions this)) in
      let allMatches :=
        Set_of (map FuzzyMatcher.item commandMatches ++ descriptionMatches) in
      match allMatches with
      | [] =>
          Responds
            {| response_category := None;
               response_commands := None;
               response_suggestions := Some getPopularCommands;
               response_categories := None;
               response_message :=
                 Some (js "No commands found matching " ++ quote ++ query ++ quote
                       ++ js ".") |}
      | _ :: _ =>
          match entriesNamed (commandDefinitions this) allMatches with
          | None => ThrowsTypeError
          | Some commands =>
              Responds
                {| response_category := None;
                   response_commands := Some commands;
                   response_suggestions := None;
                   response_categories := None;
                   response_message :=
                     Some (js "Found " ++ String_of_nat (length commands)
                           ++ js " command(s) matching " ++ quote ++ query ++ quote) |}
          end
      end
  end.

Definition getContextualHelp (this : HelpSystem) (hasActiveSession : bool)
  : HelpResponse :=
  if negb hasActiveSession then
    {| response_category := None;
       response_commands :=
         Some (map (entryOf (Some 1))
                 (List.filter
                    (fun def =>
                       member (command def)
                         [js "create session"; js "list simulators"; js "boot simulator"])
                    (commandDefinitions this)));
       response_suggestions := None;
       response_categories := None;
       response_message :=
         Some (js "No active simulator session. Here are commands to get started:") |}
  else
    {| response_category := None;
       response_commands :=
         Some (map (entryOf (Some 1))
                 (List.filter
                    (fun def =>
                       member (command def)
                         [js "install app"; js "launch app"; js "tap";
                          js "take screenshot"; js "terminate session"])
                    (commandDefinitions this)));
       response_suggestions := None;
       response_categories := None;
       response_message :=
         Some (js "Active simulator session detected. Here are some common next steps:") |}.

Definition processHelpRequest (this : HelpSystem) (request : jsstring)
  (hasActiveSession : bool) : Outcome :=
  let normalizedRequest := toLowerCase (trim request) in
  match normalizedRequest with
  | [] => Responds (getContextualHelp this hasActiveSession)
  | _ :: _ =>
      if jsstring_eqb normalizedRequest (js "help") then
        Responds (getContextualHelp this hasActiveSession)
      else if startsWith normalizedRequest (js "help ") then
        let target := trim (skipn 5 normalizedRequest) in
        match find (fun cat => jsstring_eqb (toLowerCase (category_name cat)) target)
                   categories with
        | Some _ => Responds (getCategoryHelp this target)
        | None =>
            match find (fun def => jsstring_eqb (toLowerCase (command def)) target)
                       (commandDefinitions this) with
            | Some _ => Responds (getCommandHelp this target)
            | None => searchCommands this target
            end
        end
      else if jsstring_eqb normalizedRequest (js "categories")
              || jsstring_eqb normalizedRequest (js "list categories") then
        Responds getCategories
      else if startsWith normalizedRequest (js "search ") then
        let query := trim (skipn 7 normalizedRequest) in
        searchCommands this query
      else searchCommands this normalizedRequest
  end.

End WithHost.

End HelpSystem.

(** A help system set up with the definitions of the sample registry. *)
Definition sampleHelp : HelpSystem.HelpSystem :=
  HelpSystem.setCommandDefinitions {| HelpSystem.commandDefinitions := [] |}
    (orderedDefinitions sampleRegistry).

(** * Properties *)

Import FuzzyMatcher.

(** ** Strings *)

Lemma trimStart_blank (s : jsstring) :
  forallb isWhiteSpace s = true -> trimStart s = [].
Proof.
  induction s as [|c s IH]; simpl; [reflexivity|].
  intros [Hc Hs]%andb_prop. rewrite Hc. auto.
Qed.

Lemma trim_blank (s : jsstring) :
  forallb isWhiteSpace s = true -> trim s = [].
Proof.
  intros H. unfold trim. rewrite (trimStart_blank s H). reflexivity.
Qed.

Lemma jsstring_eqb_eq (a b : jsstring) : jsstring_eqb a b = true <-> a = b.
Proof. unfold jsstring_eqb. apply bool_decide_eq_true. Qed.

Lemma jsstring_eqb_neq (a b : jsstring) : jsstring_eqb a b = false <-> a <> b.
Proof. unfold jsstring_eqb. apply bool_decide_eq_false. Qed.

Lemma jsstring_eqb_refl (a : jsstring) : jsstring_eqb a a = true.
Proof. apply jsstring_eqb_eq. reflexivity. Qed.

(** ** The edit-distance matrix *)

Lemma fillRow_length c str1 : forall prev left,
  length prev = S (length str1) ->
  length (fillRow c str1 prev left) = length str1.
Proof.
  induction str1 as [|c1 str1 IH]; intros prev left Hlen; [reflexivity|].
  destruct prev as [|diag [|up prev]]; simpl in Hlen; try discriminate.
  simpl. f_equal. apply IH. simpl. lia.
Qed.

Lemma nextRow_length str1 i c prev :
  length prev = S (length str1) ->
  length (nextRow str1 i c prev) = S (length str1).
Proof. intros H. unfold nextRow. simpl. f_equal. apply fillRow_length, H. Qed.

(** Cell [(i, k + 1 + j)] is at most [max i (k + 1 + j)], given the same for
    the row above and for the cell to the left. *)
Lemma fillRow_bound c str1 : forall prev left i k,
  (forall j, nth j prev 0 <= Nat.max i (k + j)) ->
  left <= Nat.max (S i) k ->
  forall j, nth j (fillRow c str1 prev left) 0 <= Nat.max (S i) (S k + j).
Proof.
  induction str1 as [|c1 str1 IH]; intros prev left i k Hprev Hleft j.
  - simpl. destruct j; lia.
  - destruct prev as [|diag [|up prev]]; try (simpl; destruct j; lia).
    cbn [fillRow].
    set (cell := if (c =? c1)%N then diag
                 else Nat.min (diag + 1) (Nat.min (left + 1) (up + 1))).
    assert (Hdiag : diag <= Nat.max i k).
    { specialize (Hprev 0). simpl in Hprev. replace (k + 0) with k in Hprev by lia.
      exact Hprev. }
    assert (Hcell : cell <= Nat.max (S i) (S k)).
    { subst cell. destruct (c =? c1)%N; lia. }
    destruct j as [|j]; simpl.
    + replace (k + 0) with k by lia. exact Hcell.
    + specialize (IH (up :: prev) cell i (S k)).
      replace (k + S j) with (S k + j) by lia.
      apply IH; [|exact Hcell].
      intros j'. specialize (Hprev (S j')). simpl in Hprev.
      replace (S k + j') with (k + S j') by lia. exact Hprev.
Qed.

Lemma nextRow_bound str1 i c prev :
  (forall j, nth j prev 0 <= Nat.max i j) ->
  forall j, nth j (nextRow str1 (S i) c prev) 0 <= Nat.max (S i) j.
Proof.
  intros Hprev [|j]; simpl; [lia|].
  apply (fillRow_bound c str1 prev (S i) i 0); [exact Hprev | lia].
Qed.

Lemma fillRows_bound str1 : forall str2 i prev,
  (forall j, nth j prev 0 <= Nat.max i j) ->
  forall j, nth j (fillRows str1 str2 (S i) prev) 0 <= Nat.max (i + length str2) j.
Proof.
  induction str2 as [|c str2 IH]; intros i prev Hprev j; simpl.
  - replace (i + 0) with i by lia. apply Hprev.
  - replace (i + S (length str2)) with (S i + length str2) by lia.
    apply IH. apply nextRow_bound, Hprev.
Qed.

Lemma firstRow_bound str1 j : nth j (firstRow str1) 0 <= Nat.max 0 j.
Proof.
  unfold firstRow. destruct (Nat.lt_ge_cases j (S (length str1))) as [Hlt|Hge].
  - rewrite seq_nth by exact Hlt. lia.
  - rewrite nth_overflow; [lia|]. rewrite length_seq. exact Hge.
Qed.

(** The distance never exceeds the longer of the two strings. *)
Lemma levenshteinDistance_le_max (str1 str2 : jsstring) :
  levenshteinDistance str1 str2 <= Nat.max (length str1) (length str2).
Proof.
  unfold levenshteinDistance.
  pose proof (fillRows_bound str1 str2 0 (firstRow str1) (firstRow_bound str1)
                (length str1)) as H.
  simpl in H. lia.
Qed.

(** Where the characters agree the cell copies the diagonal. *)
Lemma fillRow_nth_same c str1 : forall prev left j,
  length prev = S (length str1) ->
  nth_error str1 j = Some c ->
  nth j (fillRow c str1 prev left) 0 = nth j prev 0.
Proof.
  induction str1 as [|c1 str1 IH]; intros prev left j Hlen Hj.
  - destruct j; discriminate.
  - destruct prev as [|diag [|up prev]]; simpl in Hlen; try discriminate.
    cbn [fillRow]. destruct j as [|j]; simpl in Hj |- *.
    + injection Hj as ->. rewrite N.eqb_refl. reflexivity.
    + apply IH; [simpl; lia | exact Hj].
Qed.

Lemma fillRows_diagonal str1 : forall todo seen prev,
  str1 = seen ++ todo ->
  length prev = S (length str1) ->
  nth (length seen) prev 0 = 0 ->
  nth (length str1) (fillRows str1 todo (S (length seen)) prev) 0 = 0.
Proof.
  induction todo as [|c todo IH]; intros seen prev Hstr Hlen Hzero.
  - simpl. rewrite Hstr, length_app. simpl.
    replace (length seen + 0) with (length seen) by lia. exact Hzero.
  - simpl.
    specialize (IH (seen ++ [c]) (nextRow str1 (S (length seen)) c prev)).
    rewrite length_app in IH. simpl in IH.
    replace (length seen + 1) with (S (length seen)) in IH by lia.
    apply IH.
    + rewrite <- app_assoc. exact Hstr.
    + apply nextRow_length, Hlen.
    + unfold nextRow. simpl.
      rewrite fillRow_nth_same; [exact Hzero | exact Hlen |].
      rewrite Hstr. rewrite nth_error_app2 by lia.
      replace (length seen - length seen) with 0 by lia. reflexivity.
Qed.

(** A string is at distance 0 from itself. *)
Lemma levenshteinDistance_same (s : jsstring) : levenshteinDistance s s = 0.
Proof.
  unfold levenshteinDistance.
  apply (fillRows_diagonal s s []); [reflexivity | |].
  - unfold firstRow. apply length_seq.
  - reflexivity.
Qed.

(** ** Numbers *)

Lemma Q_of_nat_nonneg n : (0 <= Q_of_nat n)%Q.
Proof. unfold Q_of_nat, Qle. simpl. lia. Qed.

Lemma Q_of_nat_le n m : n <= m -> (Q_of_nat n <= Q_of_nat m)%Q.
Proof. intros H. unfold Q_of_nat, Qle. simpl. lia. Qed.


Lemma Q_of_nat_pos n : 0 < n -> (0 < Q_of_nat n)%Q.
Proof. intros H. unfold Q_of_nat, Qlt. simpl. lia. Qed.

Lemma Qltb_lt x y : Qltb x y = true <-> (x < y)%Q.
Proof.
  unfold Qltb. rewrite negb_true_iff. split.
  - intros H. apply Qnot_le_lt. intros Hle. apply Qle_bool_iff in Hle. congruence.
  - intros H. destruct (Qle_bool y x) eqn:E; [|reflexivity].
    apply Qle_bool_iff in E. lra.
Qed.

Lemma Qltb_ge x y : Qltb x y = false <-> (y <= x)%Q.
Proof.
  unfold Qltb. rewrite negb_false_iff. apply Qle_bool_iff.
Qed.

Lemma Math_min_le_l x y : (Math_min x y <= x)%Q.
Proof.
  unfold Math_min. destruct (Qle_bool x y) eqn:E; [lra|].
  assert (Qltb y x = true) as H%Qltb_lt by (unfold Qltb; rewrite E; reflexivity).
  lra.
Qed.

Lemma Math_min_glb x y z : (z <= x)%Q -> (z <= y)%Q -> (z <= Math_min x y)%Q.
Proof. intros Hx Hy. unfold Math_min. destruct (Qle_bool x y); assumption. Qed.

(** ** Scores *)

Section Scores.
Context {host : Host}.

Lemma ratio_nonneg d m : 0 < m -> (0 <= Q_of_nat d / Q_of_nat m)%Q.
Proof.
  intros Hm. apply Qle_shift_div_l; [apply Q_of_nat_pos, Hm|].
  pose proof (Q_of_nat_nonneg d). lra.
Qed.

Lemma ratio_le_1 d m : 0 < m -> d <= m -> (Q_of_nat d / Q_of_nat m <= 1)%Q.
Proof.
  intros Hm Hd. apply Qle_shift_div_r; [apply Q_of_nat_pos, Hm|].
  pose proof (Q_of_nat_le d m Hd). lra.
Qed.

Lemma calculateScore_le_1 input target : (calculateScore input target <= 1)%Q.
Proof.
  unfold calculateScore.
  destruct (Nat.max (length input) (length target) =? 0)%nat eqn:E; [lra|].
  apply Nat.eqb_neq in E.
  assert (Hm : 0 < Nat.max (length input) (length target)) by lia.
  pose proof (ratio_nonneg
    (levenshteinDistance (toLowerCase input) (toLowerCase target)) _ Hm).
  lra.
Qed.

(** The base score is non-negative as soon as lower-casing keeps the lengths. *)
Lemma calculateScore_nonneg input target :
  length (toLowerCase input) = length input ->
  length (toLowerCase target) = length target ->
  (0 <= calculateScore input target)%Q.
Proof.
  intros Hi Ht. unfold calculateScore.
  destruct (Nat.max (length input) (length target) =? 0)%nat eqn:E; [lra|].
  apply Nat.eqb_neq in E.
  pose proof (levenshteinDistance_le_max (toLowerCase input) (toLowerCase target)) as Hd.
  rewrite Hi, Ht in Hd.
  assert (Hm : 0 < Nat.max (length input) (length target)) by lia.
  pose proof (ratio_le_1 _ _ Hm Hd). lra.
Qed.

(** Neither boost lifts a score above 1. *)
Lemma finalScore_le_1 normalizedInput candidate :
  (finalScore normalizedInput candidate <= 1)%Q.
Proof.
  unfold finalScore.
  destruct (startsWithMatch normalizedInput candidate); [apply Math_min_le_l|].
  destruct (containsMatch normalizedInput candidate); [apply Math_min_le_l|].
  apply calculateScore_le_1.
Qed.

Lemma finalScore_nonneg normalizedInput candidate :
  length (toLowerCase normalizedInput) = length normalizedInput ->
  length (toLowerCase candidate) = length candidate ->
  (0 <= finalScore normalizedInput candidate)%Q.
Proof.
  intros Hi Ht. pose proof (calculateScore_nonneg _ _ Hi Ht) as H.
  unfold finalScore.
  destruct (startsWithMatch normalizedInput candidate);
    [apply Math_min_glb; lra|].
  destruct (containsMatch normalizedInput candidate);
    [apply Math_min_glb; lra|].
  exact H.
Qed.

(** The two boosts exclude each other: the prefix test is made first and the
    substring test only when it fails. *)
Lemma finalScore_boost normalizedInput candidate :
  let base := calculateScore normalizedInput candidate in
  finalScore normalizedInput candidate =
    if startsWithMatch normalizedInput candidate then Math_min 1 (base + (3 # 10))
    else if containsMatch normalizedInput candidate then Math_min 1 (base + (2 # 10))
    else base.
Proof. reflexivity. Qed.

(** An identical pair scores 1; so does the empty pair. *)
Lemma calculateScore_same s : (calculateScore s s == 1)%Q.
Proof.
  unfold calculateScore. rewrite levenshteinDistance_same.
  destruct (Nat.max (length s) (length s) =? 0)%nat; [reflexivity|].
  change (Q_of_nat 0) with 0%Q. unfold Qdiv. rewrite Qmult_0_l. lra.
Qed.

Lemma calculateScore_empty : calculateScore [] [] = 1%Q.
Proof. reflexivity. Qed.

Lemma startsWith_same s : startsWith s s = true.
Proof. induction s as [|c s IH]; simpl; [reflexivity|]. rewrite N.eqb_refl. exact IH. Qed.

Lemma finalScore_same s : (finalScore s s == 1)%Q.
Proof.
  unfold finalScore, startsWithMatch. rewrite startsWith_same.
  unfold Math_min. destruct (Qle_bool 1 (calculateScore s s + (3 # 10))) eqn:E;
    [reflexivity|].
  pose proof (calculateScore_same s) as H.
  assert (Qltb (calculateScore s s + (3 # 10)) 1 = true) as Hlt%Qltb_lt
    by (unfold Qltb; rewrite E; reflexivity).
  lra.
Qed.

End Scores.

(** ** Sorting *)

Section Sorting.
Context {A : Type} (cmp : A -> A -> Q) (before : A -> A -> Prop).

Lemma sortInsert_perm x l : Permutation (sortInsert cmp x l) (x :: l).
Proof.
  induction l as [|y l IH]; simpl; [reflexivity|].
  destruct (Qle_bool (cmp x y) 0); [reflexivity|].
  rewrite IH. apply perm_swap.
Qed.

Lemma Array_sort_perm l : Permutation (Array_sort cmp l) l.
Proof.
  induction l as [|x l IH]; simpl; [reflexivity|].
  rewrite sortInsert_perm. apply perm_skip, IH.
Qed.

Lemma Array_sort_length l : length (Array_sort cmp l) = length l.
Proof. apply Permutation_length, Array_sort_perm. Qed.

(** On a set of elements where the comparator agrees with a total transitive
    relation, insertion keeps a sorted list sorted. *)
Variable P : A -> Prop.
Hypothesis cmp_before :
  forall a b, P a -> P b -> (Qle_bool (cmp a b) 0 = true <-> before a b).
Hypothesis before_total : forall a b, before a b \/ before b a.
Hypothesis before_trans : forall a b c, before a b -> before b c -> before a c.



End Sorting.



(** ** FuzzyMatcher.findMatches *)










(** C7.  For an empty or white-space-only input, whatever the threshold,
    [findMatches] returns the first [maxResults] candidates, in their order,
    each with score 0.5 and distance 0. *)
Theorem findMatches_blank {host : Host} input candidates maxResults minScore :
  forallb isWhiteSpace input = true ->
  findMatches input candidates maxResults minScore
  = map defaultEntry (firstn maxResults candidates).
Proof.
  intros Hblank. unfold findMatches. rewrite (trim_blank input Hblank). reflexivity.
Qed.

Lemma findMatches_blank_witness :
  forallb isWhiteSpace (js "   ") = true
  /\ findMatches (host := latin_host) (js "   ")
       [js "tap"; js "swipe"; js "launch app"] 2 (99 # 100)
     = map defaultEntry (firstn 2 [js "tap"; js "swipe"; js "launch app"]).
Proof.
  split; [reflexivity|].
  apply (findMatches_blank (host := latin_host)). reflexivity.
Defined.

(** C6, the failing input.  The candidate U+0130 is one code unit long and
    its lower case is two; against the input "x" the distance is 2 and the
    longer length is 1, so the score is 1 - 2/1.  No boost applies and the
    score, below 0, is returned as it is when the threshold lets it through. *)
Theorem finalScore_below_zero :
  length (js "İ") = 1
  /\ length (toLowerCase (Host := latin_host) (js "İ")) = 2
  /\ levenshteinDistance (js "x") (toLowerCase (Host := latin_host) (js "İ")) = 2
  /\ finalScore (host := latin_host) (js "x") (js "İ") = (-1 # 1)%Q
  /\ findMatches (host := latin_host) (js "x") [js "İ"] 5 (-1 # 1)
     = [ {| item := js "İ"; score := -1 # 1; distance := 2 |} ].
Proof. repeat split; vm_compute; reflexivity. Qed.

(** ** The pattern parser *)

Lemma find_app_first {A} (f : A -> bool) (l1 l2 : list A) :
  find f (l1 ++ l2) = match find f l1 with Some x => Some x | None => find f l2 end.
Proof.
  induction l1 as [|x l1 IH]; simpl; [reflexivity|].
  destruct (f x); [reflexivity | exact IH].
Qed.

Section Parser.
Context {host : Host}.

Lemma parsePatterns_find definition text : forall pats,
  parsePatterns definition pats text (toLowerCase (trim text)) (trim text)
  = match find (fun p => matchesText p (toLowerCase (trim text))) pats with
    | Some p => Some (resultOf definition p text)
    | None => None
    end.
Proof.
  induction pats as [|p pats IH]; simpl; [reflexivity|].
  unfold matchesText at 1.
  destruct (p (toLowerCase (trim text))) as [m|] eqn:E; [|exact IH].
  unfold resultOf, casePreservingMatch. rewrite E. reflexivity.
Qed.

Lemma find_patterns_of_definition (d : CommandDefinition) (s : jsstring) :
  forall pats,
  find (fun dp : CommandDefinition * RegExp => matchesText (snd dp) s)
       (map (fun p => (d, p)) pats)
  = match find (fun p => matchesText p s) pats with
    | Some p => Some (d, p)
    | None => None
    end.
Proof.
  induction pats as [|p pats IH]; simpl; [reflexivity|].
  destruct (matchesText p s); [reflexivity | exact IH].
Qed.

Lemma parseDefinitions_find text : forall defs,
  parseDefinitions defs text (toLowerCase (trim text)) (trim text)
  = match find (fun dp => matchesText (snd dp) (toLowerCase (trim text)))
               (patternsOf defs) with
    | Some (d, p) => Some (resultOf d p text)
    | None => None
    end.
Proof.
  induction defs as [|d defs IH]; simpl; [reflexivity|].
  rewrite parsePatterns_find, find_app_first, find_patterns_of_definition.
  destruct (find (fun p => matchesText p (toLowerCase (trim text))) (patterns d));
    [reflexivity | exact IH].
Qed.

Lemma patternsOf_app defs1 defs2 :
  patternsOf (defs1 ++ defs2) = patternsOf defs1 ++ patternsOf defs2.
Proof. unfold patternsOf. apply flat_map_app. Qed.

Lemma parseHandlers_find text : forall handlers,
  parseHandlers handlers text
  = match find (fun dp => matchesText (snd dp) (toLowerCase (trim text)))
               (patternsOf (flat_map definitions handlers)) with
    | Some (d, p) => Some (resultOf d p text)
    | None => None
    end.
Proof.
  induction handlers as [|h handlers IH]; simpl; [reflexivity|].
  unfold parseCommand. rewrite parseDefinitions_find, patternsOf_app, find_app_first.
  destruct (find (fun dp => matchesText (snd dp) (toLowerCase (trim text)))
                 (patternsOf (definitions h))) as [[d p]|];
    [reflexivity | exact IH].
Qed.

End Parser.

(** C3.  Parsing returns on the first pattern, in the order catalogs were
    registered, definitions declared and patterns declared, that matches the
    trimmed lower-cased text.  The result then has the command of the
    definition owning that pattern, confidence 0.9 and the raw text as
    [originalText]; when no pattern matches, parsing throws. *)
Theorem parseInstruction_first_match {host : Host} (this : CommandRegistry)
  (text : jsstring) :
  parseInstruction this text
  = match firstMatching this text with
    | Some (definition, pattern) =>
        Returned
          {| pr_command := command definition;
             pr_parameters :=
               extractParameters (parameterExtractors definition)
                 (casePreservingMatch pattern (toLowerCase (trim text)) (trim text));
             pr_confidence := 9 # 10;
             pr_originalText := text |}
    | None =>
        Thrown {| error_message := message (generateEnhancedError this text);
                  error_enhancedError := Some (generateEnhancedError this text) |}
    end.
Proof.
  unfold parseInstruction, firstMatching, orderedPatterns, orderedDefinitions.
  rewrite parseHandlers_find.
  destruct (find (fun dp => matchesText (snd dp) (toLowerCase (trim text)))
                 (patternsOf (flat_map definitions (commandHandlers this))))
    as [[d p]|]; reflexivity.
Qed.

(** ** The registry's enhanced error *)

Lemma collectCandidates_spec : forall handlers commands exs,
  fold_left
    (fun acc handler =>
       fold_left
         (fun acc definition =>
            let '(allCommands, allExamples) := acc in
            (allCommands ++ [command definition],
             allExamples ++ examples definition))
         (getDefinitions handler) acc)
    handlers (commands, exs)
  = (commands ++ map command (flat_map definitions handlers),
     exs ++ flat_map examples (flat_map definitions handlers)).
Proof.
  assert (Hinner : forall defs commands exs,
    fold_left
      (fun acc definition =>
         let '(allCommands, allExamples) := acc in
         (allCommands ++ [command definition],
          allExamples ++ examples definition))
      defs (commands, exs)
    = (commands ++ map command defs, exs ++ flat_map examples defs)).
  { induction defs as [|d defs IH]; intros commands exs; simpl.
    - rewrite !app_nil_r. reflexivity.
    - rewrite IH, <- !app_assoc. reflexivity. }
  induction handlers as [|h handlers IH]; intros commands exs; simpl.
  - rewrite !app_nil_r. reflexivity.
  - unfold getDefinitions. rewrite Hinner, IH.
    rewrite !flat_map_app, !map_app, <- !app_assoc. reflexivity.
Qed.

Lemma collectCandidates_all (this : CommandRegistry) :
  collectCandidates (commandHandlers this) = (allCommands this, allExamples this).
Proof. unfold collectCandidates. rewrite collectCandidates_spec. reflexivity. Qed.

Lemma member_app x xs ys : member x (xs ++ ys) = member x xs || member x ys.
Proof. unfold member. apply existsb_app. Qed.

Lemma filter_twice {A} (f g : A -> bool) (l : list A) :
  List.filter f (List.filter g l) = List.filter (fun x => g x && f x) l.
Proof.
  induction l as [|x l IH]; simpl; [reflexivity|].
  destruct (g x); simpl; [destruct (f x)|]; rewrite ?IH; reflexivity.
Qed.

Lemma filter_same {A} (f g : A -> bool) (l : list A) :
  (forall x, f x = g x) -> List.filter f l = List.filter g l.
Proof.
  intros H. induction l as [|x l IH]; simpl; [reflexivity|].
  rewrite H, IH. reflexivity.
Qed.

Lemma member_true_neq x y set : member x set = true -> member y set = false ->
  jsstring_eqb y x = false.
Proof.
  intros Hx Hy. apply jsstring_eqb_neq. intros ->. congruence.
Qed.

(** The fold that fills the [Set], started from the elements [set]. *)
Lemma Set_add_fold : forall xs set,
  fold_left Set_add xs set
  = set ++ List.filter (fun y => negb (member y set)) (dedupe xs).
Proof.
  induction xs as [|x xs IH]; intros set; simpl.
  - rewrite app_nil_r. reflexivity.
  - rewrite IH. unfold Set_add. fold (member x set).
    destruct (member x set) eqn:E; simpl.
    + f_equal. rewrite filter_twice. apply filter_same. intros y.
      destruct (member y set) eqn:Ey; simpl; [symmetry; apply andb_false_r|].
      rewrite (member_true_neq x y set E Ey). reflexivity.
    + rewrite <- app_assoc. simpl. f_equal. f_equal.
      rewrite filter_twice. apply filter_same. intros y.
      rewrite member_app. unfold member at 2. simpl. rewrite orb_false_r.
      rewrite negb_orb. apply andb_comm.
Qed.

Lemma Set_of_dedupe xs : Set_of xs = dedupe xs.
Proof.
  unfold Set_of. rewrite Set_add_fold. simpl. unfold member. simpl.
  induction (dedupe xs) as [|y l IH]; simpl; [reflexivity|]. f_equal. exact IH.
Qed.

Lemma member_filter x (f : jsstring -> bool) l :
  member x (List.filter f l) = f x && member x l.
Proof.
  unfold member. induction l as [|y l IH]; simpl; [rewrite andb_false_r; reflexivity|].
  destruct (f y) eqn:Ey; simpl; rewrite IH.
  - destruct (jsstring_eqb x y) eqn:E; simpl.
    + apply jsstring_eqb_eq in E. subst. rewrite Ey. reflexivity.
    + reflexivity.
  - destruct (jsstring_eqb x y) eqn:E; simpl.
    + apply jsstring_eqb_eq in E. subst. rewrite Ey. reflexivity.
    + reflexivity.
Qed.

Lemma member_dedupe x xs : member x (dedupe xs) = member x xs.
Proof.
  induction xs as [|y xs IH]; [reflexivity|].
  cbn [dedupe].
  change (member x (y :: List.filter (fun z => negb (jsstring_eqb z y)) (dedupe xs)))
    with (jsstring_eqb x y
          || member x (List.filter (fun z => negb (jsstring_eqb z y)) (dedupe xs))).
  change (member x (y :: xs)) with (jsstring_eqb x y || member x xs).
  rewrite member_filter, IH.
  destruct (jsstring_eqb x y); reflexivity.
Qed.


Section EnhancedError.
Context {host : Host}.



End EnhancedError.



(** With a near miss the suggestions name the commands and examples closest
    to the text, commands first and each string once. *)
Example parseInstruction_near_miss :
  parseInstruction (host := latin_host) sampleRegistry (js "lst simulators")
  = Thrown
      {| error_message :=
           instructionLine (js "lst simulators") ++ newline ++ newline
           ++ bulletList [js "list simulators"; js "listar simuladores";
                          js "push the home button"];
         error_enhancedError :=
           Some {| message :=
                     instructionLine (js "lst simulators") ++ newline ++ newline
                     ++ bulletList [js "list simulators"; js "listar simuladores";
                                    js "push the home button"];
                   suggestions := [js "list simulators"; js "listar simuladores";
                                   js "push the home button"];
                   type := command_not_found;
                   originalInput := js "lst simulators" |} |}.
Proof. vm_compute. reflexivity. Qed.

(** ** Examples of a definition *)



Lemma find_some_of_existsb {A} (f : A -> bool) (l : list A) :
  existsb f l = true -> exists x, find f l = Some x.
Proof.
  induction l as [|x l IH]; simpl; [discriminate|].
  destruct (f x); [eauto | exact IH].
Qed.



(** ** The mapper *)

Lemma CommandType_value_nonempty (t : CommandType) :
  exists c rest, CommandType_value t = c :: rest.
Proof. destruct t; vm_compute; eauto. Qed.

Lemma commandMappings_keys_distinct :
  NoDup (map fst (commandMappings new_ParserToOrchestrator)).
Proof. apply (bool_decide_unpack _). vm_compute. reflexivity. Qed.

Lemma ownProperty_of_entry : forall entries key value,
  NoDup (map fst entries) -> In (key, value) entries ->
  ownProperty entries key = Some value.
Proof.
  induction entries as [|[k v] entries IH]; intros key value Hnd Hin; [contradiction|].
  simpl in Hnd. apply NoDup_cons in Hnd as [Hk Hnd]. simpl.
  destruct Hin as [Heq|Hin].
  - injection Heq as -> ->. rewrite jsstring_eqb_refl. reflexivity.
  - destruct (jsstring_eqb key k) eqn:E; [|apply IH; assumption].
    apply jsstring_eqb_eq in E. subst k. exfalso. apply Hk.
    apply list_elem_of_In. apply (in_map fst) in Hin. exact Hin.
Qed.

Lemma ownProperty_not_key : forall entries key,
  existsb (fun entry => jsstring_eqb (fst entry) key) entries = false ->
  ownProperty entries key = None.
Proof.
  induction entries as [|[k v] entries IH]; intros key H; [reflexivity|].
  simpl in H. apply orb_false_elim in H as [Hk Hrest]. simpl.
  destruct (jsstring_eqb key k) eqn:E; [|apply IH, Hrest].
  apply jsstring_eqb_eq in E. subst k. rewrite jsstring_eqb_refl in Hk. discriminate.
Qed.

Lemma partialMatch_find lowerCommand : forall entries,
  partialMatch entries lowerCommand
  = find (fun entry => includes lowerCommand (fst entry)) entries.
Proof.
  induction entries as [|[k v] entries IH]; simpl; [reflexivity|].
  destruct (includes lowerCommand k); [reflexivity | exact IH].
Qed.

(** No key of the table occurs inside a property name of [Object.prototype]. *)
Lemma inherited_names_hold_no_key name :
  member name objectPrototypeNames = true ->
  firstSubstringEntry new_ParserToOrchestrator name = None.
Proof.
  unfold member. intros H. apply existsb_exists in H as (n & Hn & Heq).
  apply jsstring_eqb_eq in Heq. subst n.
  repeat (destruct Hn as [<-|Hn]; [vm_compute; reflexivity|]). contradiction.
Qed.

Section Mapper.
Context {host : Host}.

(** A command that is no key, holds no key and names nothing inherited is
    refused with a plain error: a message and nothing attached. *)
Lemma mapToCommandType_throws naturalCommand :
  let this := new_ParserToOrchestrator in
  let lowerCommand := toLowerCase naturalCommand in
  isKey this lowerCommand = false ->
  firstSubstringEntry this lowerCommand = None ->
  member lowerCommand objectPrototypeNames = false ->
  mapToCommandType this naturalCommand
  = Throws {| error_message := mappingErrorMessage naturalCommand;
              error_enhancedError := None |}.
Proof.
  intros this lowerCommand Hkey Hsub Hproto. subst this.
  unfold mapToCommandType, readMapping. fold lowerCommand.
  rewrite (ownProperty_not_key _ _ Hkey).
  unfold member in Hproto. rewrite Hproto.
  rewrite partialMatch_find. unfold firstSubstringEntry in Hsub. rewrite Hsub.
  reflexivity.
Qed.

End Mapper.

(** C2.  When the lower-cased command is a key of the table the mapper
    returns the type stored under that key, whatever other keys the command
    contains.  When it is no key, the mapper returns the type of the first
    entry, in insertion order, whose key is a substring of the lower-cased
    command. *)
Theorem mapToCommandType_exact_then_substring {host : Host} (naturalCommand : jsstring) :
  let this := new_ParserToOrchestrator in
  let lowerCommand := toLowerCase naturalCommand in
  (forall value,
     In (lowerCommand, value) (commandMappings this) ->
     mapToCommandType this naturalCommand = Returns value)
  /\ (isKey this lowerCommand = false ->
      forall key value,
        firstSubstringEntry this lowerCommand = Some (key, value) ->
        mapToCommandType this naturalCommand = Returns value).
Proof.
  intros this lowerCommand. subst this. split.
  - intros value Hin. unfold mapToCommandType, readMapping. fold lowerCommand.
    rewrite (ownProperty_of_entry _ _ _ commandMappings_keys_distinct Hin).
    destruct (CommandType_value_nonempty value) as (c & rest & ->). reflexivity.
  - intros Hkey key value Hfirst.
    unfold mapToCommandType, readMapping. fold lowerCommand.
    rewrite (ownProperty_not_key _ _ Hkey).
    fold (member lowerCommand objectPrototypeNames).
    destruct (member lowerCommand objectPrototypeNames) eqn:E.
    + rewrite (inherited_names_hold_no_key _ E) in Hfirst. discriminate.
    + rewrite partialMatch_find. unfold firstSubstringEntry in Hfirst.
      rewrite Hfirst. reflexivity.
Qed.

Lemma mapToCommandType_exact_then_substring_witness :
  (In (toLowerCase (Host := latin_host) (js "Press Key Sequence"), PRESS_KEY_SEQUENCE)
      (commandMappings new_ParserToOrchestrator)
   /\ firstSubstringEntry new_ParserToOrchestrator
        (toLowerCase (Host := latin_host) (js "Press Key Sequence"))
      = Some (js "press key", PRESS_KEY)
   /\ mapToCommandType (host := latin_host) new_ParserToOrchestrator
        (js "Press Key Sequence") = Returns PRESS_KEY_SEQUENCE)
  /\ (isKey new_ParserToOrchestrator
        (toLowerCase (Host := latin_host) (js "Por favor, CREAR SESIÓN")) = false
      /\ firstSubstringEntry new_ParserToOrchestrator
           (toLowerCase (Host := latin_host) (js "Por favor, CREAR SESIÓN"))
         = Some (js "crear sesión", CREATE_SIMULATOR_SESSION)
      /\ mapToCommandType (host := latin_host) new_ParserToOrchestrator
           (js "Por favor, CREAR SESIÓN") = Returns CREATE_SIMULATOR_SESSION).
Proof.
  split.
  - assert (Hin : In (toLowerCase (Host := latin_host) (js "Press Key Sequence"),
                      PRESS_KEY_SEQUENCE)
                     (commandMappings new_ParserToOrchestrator)).
    { apply list_elem_of_In. apply (bool_decide_unpack _). vm_compute. reflexivity. }
    split; [exact Hin|]. split; [vm_compute; reflexivity|].
    apply (proj1 (mapToCommandType_exact_then_substring (host := latin_host)
                    (js "Press Key Sequence")) _ Hin).
  - split; [vm_compute; reflexivity|]. split; [vm_compute; reflexivity|].
    apply (proj2 (mapToCommandType_exact_then_substring (host := latin_host)
                    (js "Por favor, CREAR SESIÓN")) eq_refl (js "crear sesión")).
    vm_compute. reflexivity.
Defined.

(** C8, the failing input.  "constructor" is no key of the table and holds no
    key, so the mapper should throw; the property read finds the member of
    that name inherited from [Object.prototype], which is truthy, and the
    mapper returns it. *)
Theorem mapToCommandType_inherited_member {host : Host} :
  let this := new_ParserToOrchestrator in
  let lowerCommand := toLowerCase (js "constructor") in
  isKey this lowerCommand = false
  /\ firstSubstringEntry this lowerCommand = None
  /\ mapToCommandType this (js "constructor") = ReturnsInherited (js "constructor").
Proof.
  cbv zeta.
  assert (Hlower : toLowerCase (js "constructor") = js "constructor").
  { rewrite toLowerCase_ascii by (vm_compute; reflexivity). vm_compute. reflexivity. }
  unfold mapToCommandType. rewrite Hlower.
  repeat split; vm_compute; reflexivity.
Qed.

(** ** Parameter coercion *)

Lemma getProperty_setProperty o k v name :
  getProperty (setProperty o k v) name
  = if jsstring_eqb name k then v else getProperty o name.
Proof.
  induction o as [|[k' v'] o IH]; simpl.
  - destruct (jsstring_eqb name k); reflexivity.
  - destruct (jsstring_eqb k k') eqn:E; simpl.
    + apply jsstring_eqb_eq in E. subst k'.
      destruct (jsstring_eqb name k); reflexivity.
    + rewrite IH. destruct (jsstring_eqb name k') eqn:E'; [|reflexivity].
      apply jsstring_eqb_eq in E'. subst k'.
      destruct (jsstring_eqb name k) eqn:E''; [|reflexivity].
      apply jsstring_eqb_eq in E''. subst k. rewrite jsstring_eqb_refl in E.
      discriminate.
Qed.


Section Coerce.
Context {host : Host}.

Lemma numberOf_twice v : numberOf (numberOf v) = numberOf v.
Proof. destruct v; reflexivity. Qed.

Lemma getProperty_numberProperty o k name :
  getProperty (numberProperty o k) name
  = if jsstring_eqb name k then numberOf (getProperty o k) else getProperty o name.
Proof.
  unfold numberProperty.
  destruct (jsstring_eqb name k) eqn:E.
  - apply jsstring_eqb_eq in E. subst k.
    destruct (getProperty o name) eqn:Ev;
      rewrite ?getProperty_setProperty, ?jsstring_eqb_refl; try reflexivity.
    exact Ev.
  - destruct (getProperty o k); rewrite ?getProperty_setProperty, ?E; reflexivity.
Qed.

Lemma getProperty_booleanProperty o k name :
  getProperty (booleanProperty o k) name
  = if jsstring_eqb name k then booleanOf (getProperty o k) else getProperty o name.
Proof.
  unfold booleanProperty.
  destruct (jsstring_eqb name k) eqn:E.
  - apply jsstring_eqb_eq in E. subst k.
    destruct (getProperty o name) eqn:Ev;
      rewrite ?getProperty_setProperty, ?jsstring_eqb_refl; try reflexivity;
      exact Ev.
  - destruct (getProperty o k); rewrite ?getProperty_setProperty, ?E; reflexivity.
Qed.



Lemma getProperty_numberProperties names : forall o name,
  getProperty (fold_left numberProperty names o) name
  = if member name names then numberOf (getProperty o name) else getProperty o name.
Proof.
  induction names as [|k names IH]; intros o name; [reflexivity|].
  simpl. rewrite IH, getProperty_numberProperty.
  change (member name (k :: names)) with (jsstring_eqb name k || member name names).
  destruct (jsstring_eqb name k) eqn:E; simpl.
  - apply jsstring_eqb_eq in E. subst k. rewrite numberOf_twice.
    destruct (member name names); reflexivity.
  - reflexivity.
Qed.


(** One guarded conversion, run on a heap that holds the copy. *)
Lemma numberIfDefined_run (h : Heap) (l : loc) (o : JsObject) (name : jsstring) :
  numberIfDefined l name (<[l := o]> h) = (tt, <[l := numberProperty o name]> h).
Proof.
  unfold numberIfDefined, bind, readProperty, numberProperty.
  rewrite lookup_insert_eq.
  destruct (getProperty o name); unfold ret, writeProperty;
    rewrite ?alter_insert_eq; reflexivity.
Qed.

Lemma booleanIfString_run (h : Heap) (l : loc) (o : JsObject) :
  (autoboot <- readProperty l (js "autoboot") ;;
   match autoboot with
   | JString s =>
       writeProperty l (js "autoboot")
         (JBoolean (jsstring_eqb (toLowerCase s) (js "true")))
   | _ => ret tt
   end) (<[l := o]> h)
  = (tt, <[l := booleanProperty o (js "autoboot")]> h).
Proof.
  unfold bind, readProperty, booleanProperty.
  rewrite lookup_insert_eq.
  destruct (getProperty o (js "autoboot")); unfold ret, writeProperty;
    rewrite ?alter_insert_eq; reflexivity.
Qed.

(** The whole of [convertParameters]: a new location holding the converted
    copy of the properties found at [parserParameters]. *)
Lemma convertParameters_run (t : CommandType) (p : loc) (h : Heap) :
  convertParameters t p h
  = (fresh (dom h),
     <[fresh (dom h) :=
         convertObject t (match h !! p with Some o => o | None => [] end)]> h).
Proof.
  unfold convertParameters, spread.
  unfold bind at 1. unfold bind at 1.
  set (l := fresh (dom h)).
  set (o := match h !! p with Some o => o | None => [] end).
  destruct t; unfold convertObject, numericParameters; cbn [fold_left];
    try reflexivity.
  - rewrite booleanIfString_run. reflexivity.
  - unfold bind. rewrite !numberIfDefined_run. reflexivity.
  - unfold bind. rewrite !numberIfDefined_run. reflexivity.
Qed.

End Coerce.

Lemma convertObject_numeric {host : Host} (t : CommandType) (o : JsObject) :
  t <> CREATE_SIMULATOR_SESSION ->
  convertObject t o = fold_left numberProperty (numericParameters t) o.
Proof. intros H. destruct t; try reflexivity. contradiction. Qed.


Lemma lower_false {host : Host} : toLowerCase (js "false") = js "false".
Proof. rewrite toLowerCase_ascii by (vm_compute; reflexivity). vm_compute. reflexivity. Qed.



(** The two maps of the specification, on any host. *)
Example convertParameters_tap {host : Host} :
  convertParameters TAP 1%positive (heapWith tapParameters)
  = (2%positive,
     <[2%positive := [(js "x", JNumber (Finite 10)); (js "y", JNumber (Finite 20))]]>
       (heapWith tapParameters)).
Proof. rewrite convertParameters_run. vm_compute. reflexivity. Qed.

Example convertParameters_autoboot {host : Host} :
  convertParameters CREATE_SIMULATOR_SESSION 1%positive (heapWith sessionParameters)
  = (2%positive,
     <[2%positive := [(js "deviceName", JString (js "iPhone 15"));
                      (js "autoboot", JBoolean false)]]>
       (heapWith sessionParameters)).
Proof.
  rewrite convertParameters_run.
  change (heapWith sessionParameters !! 1%positive) with (Some sessionParameters).
  cbv beta iota.
  assert (Hobject : convertObject CREATE_SIMULATOR_SESSION sessionParameters
                    = [(js "deviceName", JString (js "iPhone 15"));
                       (js "autoboot", JBoolean false)]).
  { unfold convertObject, booleanProperty.
    replace (getProperty sessionParameters (js "autoboot")) with (JString (js "false"))
      by (vm_compute; reflexivity).
    rewrite lower_false. vm_compute. reflexivity. }
  rewrite Hobject. vm_compute. reflexivity.
Qed.

(** C10.  [convertParameters] writes to one location only, a location that
    was free before the call: every object of the heap, the parser's
    parameter object among them, is after the call what it was before, and
    the object returned is not the one passed in. *)
Theorem convertParameters_leaves_input {host : Host} (t : CommandType) (p : loc)
  (h : Heap) :
  let '(l, h') := convertParameters t p h in
  h !! l = None
  /\ (forall l0, l0 <> l -> h' !! l0 = h !! l0)
  /\ (forall o, h !! p = Some o -> l <> p /\ h' !! p = Some o).
Proof.
  rewrite convertParameters_run.
  assert (Hfresh : h !! fresh (dom h) = None)
    by (apply not_elem_of_dom, is_fresh).
  split; [exact Hfresh|]. split.
  - intros l0 Hl0. apply lookup_insert_ne. congruence.
  - intros o Hp.
    assert (Hne : fresh (dom h) <> p) by (intros Heq; rewrite Heq in Hfresh; congruence).
    split; [exact Hne|]. rewrite lookup_insert_ne by exact Hne. exact Hp.
Qed.

Lemma convertParameters_leaves_input_witness :
  heapWith tapParameters !! 1%positive = Some tapParameters
  /\ let '(l, h') :=
       convertParameters (host := latin_host) TAP 1%positive (heapWith tapParameters) in
     l <> 1%positive /\ h' !! 1%positive = Some tapParameters.
Proof.
  split; [reflexivity|].
  pose proof (convertParameters_leaves_input (host := latin_host) TAP 1%positive
                (heapWith tapParameters)) as H.
  destruct (convertParameters TAP 1%positive (heapWith tapParameters)) as [l h'].
  destruct H as (_ & _ & H). apply H. reflexivity.
Defined.

(** ** Further evaluations *)

(** The identical pair of the specification, as [findMatches] scores it. *)
Example findMatches_tap_tap :
  findMatches (host := latin_host) (js "tap") [js "tap"] 5 (3 # 10)
  = [ {| item := js "tap"; score := 1; distance := 0 |} ].
Proof. vm_compute. reflexivity. Qed.

(** An exact key wins over an earlier key it contains. *)
Example mapToCommandType_exact_priority :
  mapToCommandType (host := latin_host) new_ParserToOrchestrator
    (js "listar simuladores arrancados") = Returns LIST_BOOTED_SIMULATORS
  /\ firstSubstringEntry new_ParserToOrchestrator (js "listar simuladores arrancados")
     = Some (js "listar simuladores", LIST_AVAILABLE_SIMULATORS).
Proof. split; vm_compute; reflexivity. Qed.

(** An unmapped command: a plain error, nothing attached. *)
Example mapToCommandType_unmapped :
  mapToCommandType (host := latin_host) new_ParserToOrchestrator (js "press button")
  = Throws {| error_message := mappingErrorMessage (js "press button");
              error_enhancedError := None |}.
Proof. vm_compute. reflexivity. Qed.

(** The match of the trimmed text is used where there is one, so that the
    parameters keep their case. *)
Example parseInstruction_keeps_case :
  parseInstruction (host := latin_host) sampleRegistry
    (js "  open url https://Example.com ")
  = Returned
      {| pr_command := js "open url";
         pr_parameters := [(js "url", JString (js "https://Example.com"))];
         pr_confidence := 9 # 10;
         pr_originalText := js "  open url https://Example.com " |}.
Proof. vm_compute. reflexivity. Qed.

Example latin_StringToNumber :
  map (StringToNumber (host := latin_host))
      [js "10"; js " 42 "; js "-1.5"; js "2e3"; js "0x1F"; js ""; js "12px"; js "."]
  = [Finite 10; Finite 42; Finite (- (15 # 10)); Finite 2000; Finite 31; Finite 0;
     NaN; NaN].
Proof. vm_compute. reflexivity. Qed.

(** * Further properties *)

(** ** The edit distance *)

Lemma matrixCell_step str1 str2 i j :
  matrixCell str1 str2 (S i) (S j)
  = if (nth i str2 0 =? nth j str1 0)%N then matrixCell str1 str2 i j
    else Nat.min (matrixCell str1 str2 i j + 1)
                 (Nat.min (matrixCell str1 str2 (S i) j + 1)
                          (matrixCell str1 str2 i (S j) + 1)).
Proof. reflexivity. Qed.

Lemma matrixCell_first_column str1 str2 i : matrixCell str1 str2 i 0 = i.
Proof. destruct i; reflexivity. Qed.

(** The cells [fillRow] writes are the cells of the recurrence. *)
Lemma fillRow_cells str1 str2 i : forall todo prev left k,
  (forall j, nth j todo 0%N = nth (k + j) str1 0%N) ->
  length prev = S (length todo) ->
  (forall j, j <= length todo -> nth j prev 0 = matrixCell str1 str2 i (k + j)) ->
  left = matrixCell str1 str2 (S i) k ->
  forall j, j < length todo ->
    nth j (fillRow (nth i str2 0%N) todo prev left) 0
    = matrixCell str1 str2 (S i) (S k + j).
Proof.
  induction todo as [|c1 todo IH]; intros prev left k Hchars Hlen Hprev Hleft j Hj;
    [simpl in Hj; lia|].
  destruct prev as [|diag [|up prev]]; simpl in Hlen; try discriminate.
  cbn [fillRow].
  set (cell := if (nth i str2 0 =? c1)%N then diag
               else Nat.min (diag + 1) (Nat.min (left + 1) (up + 1))).
  assert (Hcell : cell = matrixCell str1 str2 (S i) (S k)).
  { subst cell. rewrite matrixCell_step.
    pose proof (Hchars 0) as Hc. simpl in Hc. rewrite Nat.add_0_r in Hc.
    unfold jsstring, char16 in *. rewrite <- Hc.
    pose proof (Hprev 0 ltac:(simpl; lia)) as Hd. simpl in Hd.
    rewrite Nat.add_0_r in Hd.
    pose proof (Hprev 1 ltac:(simpl; lia)) as Hu. simpl in Hu.
    replace (k + 1) with (S k) in Hu by lia.
    rewrite Hd, Hu, Hleft. reflexivity. }
  destruct j as [|j]; simpl.
  - rewrite Nat.add_0_r. exact Hcell.
  - replace (k + S j) with (S k + j) by lia.
    apply (IH (up :: prev) cell (S k)).
    + intros j'. specialize (Hchars (S j')). simpl in Hchars.
      replace (S k + j') with (k + S j') by lia. exact Hchars.
    + simpl. lia.
    + intros j' Hj'. specialize (Hprev (S j') ltac:(simpl; lia)). simpl in Hprev.
      replace (S k + j') with (k + S j') by lia. exact Hprev.
    + exact Hcell.
    + simpl in Hj. lia.
Qed.

Lemma nextRow_cells str1 str2 i prev :
  length prev = S (length str1) ->
  (forall j, j <= length str1 -> nth j prev 0 = matrixCell str1 str2 i j) ->
  forall j, j <= length str1 ->
    nth j (nextRow str1 (S i) (nth i str2 0%N) prev) 0 = matrixCell str1 str2 (S i) j.
Proof.
  intros Hlen Hprev [|j] Hj; [reflexivity|].
  unfold nextRow. simpl nth.
  apply (fillRow_cells str1 str2 i str1 prev (S i) 0);
    [intros j'; reflexivity | assumption | assumption | reflexivity | exact Hj].
Qed.

Lemma fillRows_cells str1 str2 : forall todo seen prev,
  str2 = seen ++ todo ->
  length prev = S (length str1) ->
  (forall j, j <= length str1 -> nth j prev 0 = matrixCell str1 str2 (length seen) j) ->
  forall j, j <= length str1 ->
    nth j (fillRows str1 todo (S (length seen)) prev) 0
    = matrixCell str1 str2 (length str2) j.
Proof.
  induction todo as [|c todo IH]; intros seen prev Hstr Hlen Hprev j Hj.
  - simpl. rewrite Hstr, app_nil_r. rewrite Hstr, app_nil_r in Hprev. apply Hprev, Hj.
  - simpl.
    assert (Hc : c = nth (length seen) str2 0%N).
    { rewrite Hstr, app_nth2 by lia. rewrite Nat.sub_diag. reflexivity. }
    specialize (IH (seen ++ [c]) (nextRow str1 (S (length seen)) c prev)).
    rewrite length_app in IH. simpl in IH.
    replace (length seen + 1) with (S (length seen)) in IH by lia.
    apply IH; [rewrite <- app_assoc; exact Hstr | apply nextRow_length, Hlen | | exact Hj].
    rewrite Hc. apply nextRow_cells; assumption.
Qed.

(** The distance is the last cell of the recurrence. *)
Lemma levenshteinDistance_cell str1 str2 :
  levenshteinDistance str1 str2 = matrixCell str1 str2 (length str2) (length str1).
Proof.
  unfold levenshteinDistance.
  apply (fillRows_cells str1 str2 str2 [] (firstRow str1)); try reflexivity.
  - unfold firstRow. apply length_seq.
  - intros j Hj. unfold firstRow. rewrite seq_nth by lia. reflexivity.
Qed.

Lemma matrixCell_lower_bound str1 str2 : forall i j,
  i - j <= matrixCell str1 str2 i j /\ j - i <= matrixCell str1 str2 i j.
Proof.
  induction i as [|i IHi]; intros j; [simpl; lia|].
  induction j as [|j IHj]; [rewrite matrixCell_first_column; lia|].
  rewrite matrixCell_step.
  pose proof (IHi j). pose proof (IHi (S j)).
  destruct (_ =? _)%N; lia.
Qed.

Lemma firstn_snoc_nth {A} (d : A) (l : list A) i :
  i < length l -> firstn (S i) l = firstn i l ++ [nth i l d].
Proof.
  revert i. induction l as [|x l IH]; intros i Hi; [simpl in Hi; lia|].
  destruct i as [|i]; [reflexivity|].
  simpl. f_equal. apply IH. simpl in Hi. lia.
Qed.

(** A cell is 0 only on the diagonal, where the two prefixes are equal. *)
Lemma matrixCell_zero str1 str2 : forall i j,
  i <= length str2 -> j <= length str1 ->
  matrixCell str1 str2 i j = 0 ->
  i = j /\ firstn i str2 = firstn j str1.
Proof.
  unfold jsstring, char16 in *.
  induction i as [|i IHi]; intros j Hi Hj Hzero.
  - simpl in Hzero. subst j. split; reflexivity.
  - destruct j as [|j]; [rewrite matrixCell_first_column in Hzero; discriminate|].
    rewrite matrixCell_step in Hzero. unfold jsstring, char16 in *.
    destruct (nth i str2 0 =? nth j str1 0)%N eqn:E; [|lia].
    apply N.eqb_eq in E.
    destruct (IHi j ltac:(lia) ltac:(lia) Hzero) as [-> Hfirst].
    split; [reflexivity|].
    rewrite (firstn_snoc_nth 0%N str2) by lia.
    rewrite (firstn_snoc_nth 0%N str1) by lia.
    rewrite Hfirst, E. reflexivity.
Qed.

Lemma matrixCell_transpose str1 str2 : forall i j,
  matrixCell str1 str2 i j = matrixCell str2 str1 j i.
Proof.
  induction i as [|i IHi]; intros j.
  - rewrite matrixCell_first_column. reflexivity.
  - induction j as [|j IHj]; [rewrite matrixCell_first_column; reflexivity|].
    rewrite !matrixCell_step, IHi, IHj, (IHi (S j)), (N.eqb_sym (nth i str2 0%N)).
    destruct (_ =? _)%N; lia.
Qed.

(** X1.  The distance lies between the difference of the two lengths and
    the longer length. *)
Theorem levenshteinDistance_bounds (str1 str2 : jsstring) :
  length str1 - length str2 <= levenshteinDistance str1 str2
  /\ length str2 - length str1 <= levenshteinDistance str1 str2
  /\ levenshteinDistance str1 str2 <= Nat.max (length str1) (length str2).
Proof.
  pose proof (levenshteinDistance_le_max str1 str2) as Hmax.
  rewrite levenshteinDistance_cell in *.
  pose proof (matrixCell_lower_bound str1 str2 (length str2) (length str1)).
  lia.
Qed.

(** X2.  The distance is 0 exactly between equal strings. *)
Theorem levenshteinDistance_zero_iff (str1 str2 : jsstring) :
  levenshteinDistance str1 str2 = 0 <-> str1 = str2.
Proof.
  split.
  - rewrite levenshteinDistance_cell. intros H.
    destruct (matrixCell_zero str1 str2 _ _ (Nat.le_refl _) (Nat.le_refl _) H)
      as [Hlen Hfirst].
    rewrite !firstn_all in Hfirst. symmetry. exact Hfirst.
  - intros ->. apply levenshteinDistance_same.
Qed.

(** X3.  The distance does not depend on the order of its arguments. *)
Theorem levenshteinDistance_symmetric (str1 str2 : jsstring) :
  levenshteinDistance str1 str2 = levenshteinDistance str2 str1.
Proof. rewrite !levenshteinDistance_cell. apply matrixCell_transpose. Qed.

(** X4.  Against the empty string the distance is the length of the other
    string, whichever side the empty string is on. *)
Theorem levenshteinDistance_empty (s : jsstring) :
  levenshteinDistance s [] = length s /\ levenshteinDistance [] s = length s.
Proof.
  rewrite !levenshteinDistance_cell. simpl length. split.
  - reflexivity.
  - apply matrixCell_first_column.
Qed.

(** ** What [findMatches] returns *)

Section Matches.
Context {host : Host}.

(** The loop over the candidates keeps, in their order, the candidates that
    reach the threshold. *)
Lemma collectMatches_fold normalizedInput minScore : forall candidates results,
  fold_left (pushCandidate normalizedInput minScore) candidates results
  = results ++ map (scoredEntry normalizedInput)
                   (List.filter (reachesThreshold normalizedInput minScore) candidates).
Proof.
  induction candidates as [|c candidates IH]; intros results; simpl.
  - rewrite app_nil_r. reflexivity.
  - rewrite IH. unfold pushCandidate at 1, reachesThreshold at 2.
    destruct (Qle_bool minScore (finalScore normalizedInput c)); simpl.
    + rewrite <- app_assoc. reflexivity.
    + reflexivity.
Qed.

Lemma collectMatches_filter normalizedInput candidates minScore :
  collectMatches normalizedInput candidates minScore
  = map (scoredEntry normalizedInput)
        (List.filter (reachesThreshold normalizedInput minScore) candidates).
Proof. unfold collectMatches. apply collectMatches_fold. Qed.

Lemma In_findMatches_collect input c rest candidates maxResults minScore r :
  trim input = c :: rest ->
  In r (findMatches input candidates maxResults minScore) ->
  In r (collectMatches (toLowerCase (c :: rest)) candidates minScore).
Proof.
  intros Htrim Hin. unfold findMatches in Hin. rewrite Htrim in Hin. cbv zeta in Hin.
  eapply Permutation_in; [apply Array_sort_perm|].
  rewrite <- (firstn_skipn maxResults (Array_sort compareMatches _)).
  apply in_or_app. left. exact Hin.
Qed.

End Matches.

(** X5.  For a non-blank input every entry of the result is the scored entry
    of one of the candidates, and its score is at least the threshold and at
    most 1. *)
Theorem findMatches_entries {host : Host} input candidates maxResults minScore r :
  trim input <> [] ->
  In r (findMatches input candidates maxResults minScore) ->
  In (item r) candidates
  /\ r = scoredEntry (toLowerCase (trim input)) (item r)
  /\ (minScore <= score r)%Q
  /\ (score r <= 1)%Q.
Proof.
  intros Hinput Hin.
  destruct (trim input) as [|c rest] eqn:Htrim; [contradiction|].
  apply (In_findMatches_collect input c rest) in Hin; [|exact Htrim].
  rewrite collectMatches_filter in Hin.
  apply in_map_iff in Hin as (candidate & <- & Hc).
  apply List.filter_In in Hc as [Hc Hreach].
  cbn [item scoredEntry score].
  split; [exact Hc|]. split; [reflexivity|]. split.
  - apply Qle_bool_iff, Hreach.
  - apply finalScore_le_1.
Qed.

Lemma findMatches_entries_witness :
  trim (js " tap ") <> []
  /\ In {| item := js "tap at"; score := 48 # 60; distance := 3 |}
        (findMatches (host := latin_host) (js " tap ")
           [js "swipe"; js "tap at"; js "tap"] 5 (3 # 10))
  /\ In (js "tap at") [js "swipe"; js "tap at"; js "tap"]
  /\ ((3 # 10) <= 48 # 60)%Q
  /\ (48 # 60 <= 1)%Q.
Proof.
  assert (Hne : trim (js " tap ") <> []) by (vm_compute; discriminate).
  assert (Hin : In {| item := js "tap at"; score := 48 # 60; distance := 3 |}
                   (findMatches (host := latin_host) (js " tap ")
                      [js "swipe"; js "tap at"; js "tap"] 5 (3 # 10)))
    by (vm_compute; auto).
  split; [exact Hne|]. split; [exact Hin|].
  destruct (findMatches_entries (host := latin_host) _ _ _ _ _ Hne Hin)
    as (Hc & _ & Hlow & Hhigh).
  split; [exact Hc|]. split; [exact Hlow | exact Hhigh].
Defined.

Lemma findMatches_count {host : Host} input candidates maxResults minScore :
  length (findMatches input candidates maxResults minScore)
  = Nat.min maxResults
      (match trim input with
       | [] => length candidates
       | _ :: _ =>
           length (List.filter
                     (reachesThreshold (toLowerCase (trim input)) minScore)
                     candidates)
       end).
Proof.
  unfold findMatches. destruct (trim input) as [|c rest].
  - rewrite length_map, length_firstn. reflexivity.
  - cbv zeta. rewrite length_firstn, Array_sort_length, collectMatches_filter,
      length_map. reflexivity.
Qed.


(** X7.  A candidate that equals the trimmed input up to case is never
    filtered out by a threshold of at most 1: when the cap leaves room for
    every candidate, the result has an entry for it with score 1 and
    distance 0. *)
Theorem findMatches_exact_candidate {host : Host} input candidates maxResults
  minScore candidate :
  trim input <> [] ->
  toLowerCase candidate = toLowerCase (trim input) ->
  toLowerCase (toLowerCase candidate) = toLowerCase candidate ->
  In candidate candidates ->
  (minScore <= 1)%Q ->
  length candidates <= maxResults ->
  exists r,
    In r (findMatches input candidates maxResults minScore)
    /\ item r = candidate /\ (score r == 1)%Q /\ distance r = 0.
Proof.
  intros Hinput Hlower Hidem Hin Hmin Hcap.
  destruct (trim input) as [|c rest] eqn:Htrim; [contradiction|].
  set (normalizedInput := toLowerCase (c :: rest)) in *.
  assert (Hbase : (calculateScore normalizedInput candidate == 1)%Q).
  { unfold calculateScore. subst normalizedInput. rewrite <- Hlower, Hidem.
    rewrite levenshteinDistance_same.
    destruct (Nat.max _ _ =? 0)%nat; [reflexivity|].
    change (Q_of_nat 0) with 0%Q. unfold Qdiv. rewrite Qmult_0_l. lra. }
  assert (Hscore : finalScore normalizedInput candidate = 1%Q).
  { unfold finalScore, startsWithMatch. subst normalizedInput.
    rewrite <- Hlower at 1. rewrite Hidem, startsWith_same.
    unfold Math_min.
    destruct (Qle_bool 1 (calculateScore (toLowerCase (c :: rest)) candidate + (3 # 10)))
      eqn:E; [reflexivity|].
    assert (Qltb (calculateScore (toLowerCase (c :: rest)) candidate + (3 # 10)) 1 = true)
      as Hlt%Qltb_lt by (unfold Qltb; rewrite E; reflexivity).
    lra. }
  exists (scoredEntry normalizedInput candidate).
  split; [|split; [reflexivity|split]].
  - unfold findMatches. rewrite Htrim. cbv zeta. fold normalizedInput.
    rewrite firstn_all2.
    + eapply Permutation_in; [symmetry; apply Array_sort_perm|].
      rewrite collectMatches_filter. apply in_map. apply List.filter_In.
      split; [exact Hin|]. unfold reachesThreshold. rewrite Hscore.
      apply Qle_bool_iff, Hmin.
    + rewrite Array_sort_length, collectMatches_filter, length_map.
      etransitivity; [apply List.filter_length_le | exact Hcap].
  - cbn [score scoredEntry]. rewrite Hscore. reflexivity.
  - cbn [distance scoredEntry]. subst normalizedInput.
    rewrite <- Hlower. apply levenshteinDistance_same.
Qed.

Lemma findMatches_exact_candidate_witness :
  trim (js " TAP ") <> []
  /\ toLowerCase (Host := latin_host) (js "Tap")
     = toLowerCase (Host := latin_host) (trim (js " TAP "))
  /\ exists r,
       In r (findMatches (host := latin_host) (js " TAP ")
               [js "swipe"; js "Tap"; js "tap at"] 3 (1 # 1))
       /\ item r = js "Tap" /\ (score r == 1)%Q /\ distance r = 0.
Proof.
  assert (Hne : trim (js " TAP ") <> []) by (vm_compute; discriminate).
  split; [exact Hne|]. split; [vm_compute; reflexivity|].
  apply (findMatches_exact_candidate (host := latin_host)); try exact Hne.
  - vm_compute. reflexivity.
  - vm_compute. reflexivity.
  - simpl. auto.
  - discriminate.
  - simpl. lia.
Defined.

(** X8.  [findBestMatch] is the first entry of what [findMatches] returns
    under any cap of at least 1. *)
Theorem findBestMatch_head {host : Host} input candidates maxResults minScore :
  1 <= maxResults ->
  findBestMatch input candidates minScore
  = hd_error (findMatches input candidates maxResults minScore).
Proof.
  intros Hcap. unfold findBestMatch.
  assert (Hone : findMatches input candidates 1 minScore
                 = firstn 1 (findMatches input candidates maxResults minScore)).
  { unfold findMatches. destruct (trim input) as [|c rest]; cbv zeta.
    - rewrite <- firstn_map, <- (firstn_map _ maxResults), firstn_firstn.
      replace (Nat.min 1 maxResults) with 1 by lia. reflexivity.
    - rewrite firstn_firstn. replace (Nat.min 1 maxResults) with 1 by lia.
      reflexivity. }
  rewrite Hone.
  destruct (findMatches input candidates maxResults minScore); reflexivity.
Qed.

Lemma findBestMatch_head_witness :
  1 <= 3
  /\ findBestMatch (host := latin_host) (js "lst simulators")
       [js "open url"; js "list simulators"; js "listar simuladores"] (3 # 10)
     = hd_error (findMatches (host := latin_host) (js "lst simulators")
                   [js "open url"; js "list simulators"; js "listar simuladores"]
                   3 (3 # 10)).
Proof.
  split; [lia|]. apply (findBestMatch_head (host := latin_host)). lia.
Defined.



(** ** Trimming *)

Lemma trimStart_head s c t : trimStart s = c :: t -> isWhiteSpace c = false.
Proof.
  induction s as [|x s IH]; simpl; [discriminate|].
  destruct (isWhiteSpace x) eqn:E; [exact IH|].
  intros H. injection H as <- _. exact E.
Qed.

Lemma trimStart_keeps c t : isWhiteSpace c = false -> trimStart (c :: t) = c :: t.
Proof. intros H. simpl. rewrite H. reflexivity. Qed.

Lemma trimStart_twice s : trimStart (trimStart s) = trimStart s.
Proof.
  destruct (trimStart s) as [|c t] eqn:E; [reflexivity|].
  apply trimStart_keeps. eapply trimStart_head, E.
Qed.

Lemma trimStart_snoc l c :
  isWhiteSpace c = false -> trimStart (l ++ [c]) = trimStart l ++ [c].
Proof.
  intros Hc. induction l as [|x l IH]; simpl; [rewrite Hc; reflexivity|].
  destruct (isWhiteSpace x); [exact IH | reflexivity].
Qed.

Lemma trimEnd_twice s : trimEnd (trimEnd s) = trimEnd s.
Proof. unfold trimEnd. rewrite rev_involutive, trimStart_twice. reflexivity. Qed.

(** Trimming the end leaves the first unit of a string that does not start
    with white space where it is. *)
Lemma trimEnd_head c t :
  isWhiteSpace c = false -> exists t', trimEnd (c :: t) = c :: t'.
Proof.
  intros Hc. unfold trimEnd. simpl rev.
  rewrite (trimStart_snoc (rev t) c Hc), rev_app_distr. simpl. eauto.
Qed.

Lemma trim_twice s : trim (trim s) = trim s.
Proof.
  unfold trim. destruct (trimStart s) as [|c t] eqn:E; [reflexivity|].
  pose proof (trimStart_head s c t E) as Hc.
  destruct (trimEnd_head c t Hc) as [t' Ht'].
  rewrite Ht', (trimStart_keeps c t' Hc), <- Ht'. apply trimEnd_twice.
Qed.

(** ** Parsing with one catalog and with several *)

(** X10.  White space around an instruction changes neither the command a
    catalog parses it to nor the parameters, only the text the result quotes. *)
Theorem parseCommand_outer_space {host : Host} (this : BaseCommandDefinition)
  (text : jsstring) :
  parseCommand this (trim text)
  = match parseCommand this text with
    | Some r =>
        Some {| pr_command := pr_command r;
                pr_parameters := pr_parameters r;
                pr_confidence := pr_confidence r;
                pr_originalText := trim text |}
    | None => None
    end.
Proof.
  unfold parseCommand. rewrite !parseDefinitions_find, trim_twice.
  destruct (find _ _) as [[d p]|]; [|reflexivity].
  unfold resultOf. rewrite trim_twice. reflexivity.
Qed.

Lemma names_setProperty_in o k v name :
  In name (map fst (setProperty o k v)) -> name = k \/ In name (map fst o).
Proof.
  induction o as [|[k' v'] o IH]; simpl.
  - intros [H|[]]. left. congruence.
  - destruct (jsstring_eqb k k') eqn:E; simpl.
    + apply jsstring_eqb_eq in E. subst k'. intros [H|H]; auto.
    + intros [H|H]; auto. destruct (IH H); auto.
Qed.

(** What the loop over the extractors keeps true of the parameter object. *)
Lemma extractParameters_invariant
  (extractors : list (jsstring * (RegExpMatchArray -> JsValue)))
  (m : RegExpMatchArray) :
  forall done parameters,
    (forall name, In name (map fst parameters) ->
       getProperty parameters name <> JUndefined
       /\ In name (map fst (done ++ extractors))) ->
    forall name,
      In name (map fst
                 (fold_left
                    (fun parameters entry =>
                       let '(paramName, extractor) := entry in
                       match extractor m with
                       | JUndefined => parameters
                       | value => setProperty parameters paramName value
                       end)
                    extractors parameters)) ->
      getProperty
        (fold_left
           (fun parameters entry =>
              let '(paramName, extractor) := entry in
              match extractor m with
              | JUndefined => parameters
              | value => setProperty parameters paramName value
              end)
           extractors parameters) name <> JUndefined
      /\ In name (map fst (done ++ extractors)).
Proof.
  induction extractors as [|[k f] extractors IH]; intros done parameters Hinv name Hin;
    [apply Hinv, Hin|].
  simpl in Hin |- *.
  replace (done ++ (k, f) :: extractors) with ((done ++ [(k, f)]) ++ extractors)
    by (rewrite <- app_assoc; reflexivity).
  apply IH; [|exact Hin].
  clear name Hin. intros name Hin.
  rewrite <- app_assoc. simpl.
  assert (Hk : In k (map fst (done ++ (k, f) :: extractors))).
  { rewrite map_app. apply in_or_app. right. left. reflexivity. }
  destruct (f m) eqn:E; try (apply Hinv, Hin);
    (apply names_setProperty_in in Hin; rewrite getProperty_setProperty;
     destruct (jsstring_eqb name k) eqn:Ek;
     [apply jsstring_eqb_eq in Ek; subst name; split; [discriminate | exact Hk]
     |destruct Hin as [->|Hin];
      [rewrite jsstring_eqb_refl in Ek; discriminate | apply Hinv, Hin]]).
Qed.

(** X11.  A parse result holds no parameter whose value is undefined, and
    every parameter it holds is named by an extractor of some definition of
    the catalog. *)
Theorem parseCommand_parameters {host : Host} (this : BaseCommandDefinition)
  (text : jsstring) (r : ParseResult) (name : jsstring) :
  parseCommand this text = Some r ->
  In name (map fst (pr_parameters r)) ->
  getProperty (pr_parameters r) name <> JUndefined
  /\ exists definition,
       In definition (definitions this)
       /\ pr_command r = command definition
       /\ In name (map fst (parameterExtractors definition)).
Proof.
  unfold parseCommand. rewrite parseDefinitions_find.
  destruct (find _ _) as [[d p]|] eqn:Efind; [|discriminate].
  intros H Hin. injection H as <-. cbn [pr_parameters pr_command resultOf] in *.
  unfold extractParameters in *.
  destruct (extractParameters_invariant (parameterExtractors d) _ [] []
              ltac:(intros ? []) name Hin) as [Hdef Hname].
  split; [exact Hdef|]. exists d. split; [|split; [reflexivity | exact Hname]].
  apply find_some in Efind as [Hdp _]. unfold patternsOf in Hdp.
  apply in_flat_map in Hdp as (d' & Hd' & Hp).
  apply in_map_iff in Hp as (p' & Heq & _). injection Heq as -> _. exact Hd'.
Qed.

Lemma parseCommand_parameters_witness :
  parseCommand (host := latin_host) {| definitions := [openUrlDefinition] |}
    (js "open url https://Example.com")
  = Some {| pr_command := js "open url";
            pr_parameters := [(js "url", JString (js "https://Example.com"))];
            pr_confidence := 9 # 10;
            pr_originalText := js "open url https://Example.com" |}
  /\ In (js "url") [js "url"]
  /\ getProperty [(js "url", JString (js "https://Example.com"))] (js "url")
     <> JUndefined.
Proof.
  assert (Hparse : parseCommand (host := latin_host)
                     {| definitions := [openUrlDefinition] |}
                     (js "open url https://Example.com")
                   = Some {| pr_command := js "open url";
                             pr_parameters :=
                               [(js "url", JString (js "https://Example.com"))];
                             pr_confidence := 9 # 10;
                             pr_originalText := js "open url https://Example.com" |})
    by (vm_compute; reflexivity).
  assert (Hin : In (js "url") [js "url"]) by (left; reflexivity).
  split; [exact Hparse|]. split; [exact Hin|].
  exact (proj1 (parseCommand_parameters (host := latin_host) _ _ _ (js "url")
                  Hparse Hin)).
Defined.

Lemma parseHandlers_app {host : Host} text : forall handlers more,
  parseHandlers (handlers ++ more) text
  = match parseHandlers handlers text with
    | Some r => Some r
    | None => parseHandlers more text
    end.
Proof.
  induction handlers as [|h handlers IH]; intros more; simpl; [reflexivity|].
  destruct (parseCommand h text); [reflexivity | apply IH].
Qed.

(** X12.  Registering one more catalog never changes what an instruction
    parses to when the catalogs registered so far parse it; the new catalog
    is asked only when they all fail. *)
Theorem registerHandler_parse {host : Host} (this : CommandRegistry)
  (handler : BaseCommandDefinition) (text : jsstring) :
  parseInstruction (registerHandler this handler) text
  = match parseInstruction this text with
    | Returned r => Returned r
    | Thrown _ =>
        match parseCommand handler text with
        | Some r => Returned r
        | None =>
            Thrown
              {| error_message :=
                   message (generateEnhancedError (registerHandler this handler) text);
                 error_enhancedError :=
                   Some (generateEnhancedError (registerHandler this handler) text) |}
        end
    end.
Proof.
  unfold parseInstruction, registerHandler. cbn [commandHandlers].
  rewrite parseHandlers_app.
  destruct (parseHandlers (commandHandlers this) text); [reflexivity|].
  simpl. destruct (parseCommand handler text); reflexivity.
Qed.

(** ** Suggestions *)

Lemma findMatches_item_in {host : Host} input candidates maxResults minScore r :
  In r (findMatches input candidates maxResults minScore) -> In (item r) candidates.
Proof.
  intros Hin. destruct (trim input) as [|c rest] eqn:Htrim.
  - unfold findMatches in Hin. rewrite Htrim in Hin.
    apply in_map_iff in Hin as (x & <- & Hx). simpl.
    rewrite <- (firstn_skipn maxResults candidates). apply in_or_app. left. exact Hx.
  - apply (In_findMatches_collect input c rest) in Hin; [|exact Htrim].
    rewrite collectMatches_filter in Hin.
    apply in_map_iff in Hin as (x & <- & Hx).
    apply List.filter_In in Hx as [Hx _]. exact Hx.
Qed.

Lemma In_member x xs : In x xs <-> member x xs = true.
Proof.
  unfold member. rewrite existsb_exists. split.
  - intros H. exists x. split; [exact H | apply jsstring_eqb_refl].
  - intros (y & Hy & Heq). apply jsstring_eqb_eq in Heq. subst y. exact Hy.
Qed.

Lemma In_dedupe x xs : In x (dedupe xs) <-> In x xs.
Proof. rewrite !In_member, member_dedupe. reflexivity. Qed.

Lemma NoDup_filter {A} (f : A -> bool) (l : list A) :
  NoDup l -> NoDup (List.filter f l).
Proof.
  induction 1 as [|x l Hx Hl IH]; simpl; [constructor|].
  destruct (f x); [|exact IH].
  constructor; [|exact IH].
  rewrite list_elem_of_In. intros Hin. apply List.filter_In in Hin as [Hin _].
  apply Hx. apply list_elem_of_In. exact Hin.
Qed.

Lemma NoDup_dedupe xs : NoDup (dedupe xs).
Proof.
  induction xs as [|x xs IH]; simpl; [constructor|].
  constructor; [|apply NoDup_filter, IH].
  rewrite list_elem_of_In. intros Hin. apply List.filter_In in Hin as [_ Hne].
  rewrite jsstring_eqb_refl in Hne. discriminate.
Qed.

Lemma NoDup_firstn {A} n (l : list A) : NoDup l -> NoDup (firstn n l).
Proof.
  revert l. induction n as [|n IH]; intros l Hl; [constructor|].
  destruct Hl as [|x l Hx Hl]; [constructor|]. simpl.
  constructor; [|apply IH, Hl].
  intros Hin. apply Hx. rewrite <- (firstn_skipn n l). apply elem_of_app. left. exact Hin.
Qed.

(** X13.  The suggestions of an enhanced error are at most five, no string
    occurs twice among them, and each is the name of a registered command or
    one of the registered examples. *)
Theorem generateEnhancedError_suggestions {host : Host} (this : CommandRegistry)
  (text : jsstring) :
  let found := suggestions (generateEnhancedError this text) in
  length found <= 5
  /\ NoDup found
  /\ Forall (fun s => In s (allCommands this) \/ In s (allExamples this)) found.
Proof.
  unfold generateEnhancedError. rewrite collectCandidates_all, Set_of_dedupe.
  cbn [suggestions]. split; [apply firstn_le_length|]. split.
  - apply NoDup_firstn, NoDup_dedupe.
  - apply Forall_forall. intros s Hs. apply list_elem_of_In in Hs.
    assert (Hin : In s (dedupe
                          (map item (findMatches text (allCommands this) 3 (3 # 10))
                           ++ map item (findMatches text (allExamples this) 3 (2 # 10))))).
    { rewrite <- (firstn_skipn 5 (dedupe _)). apply in_or_app. left. exact Hs. }
    apply In_dedupe, in_app_or in Hin.
    destruct Hin as [Hin|Hin]; apply in_map_iff in Hin as (r & <- & Hr);
      [left | right]; eapply findMatches_item_in, Hr.
Qed.

(** X14.  For a blank partial text [suggestCompletions] returns its five
    fixed commands; otherwise it returns at most five strings, each the name
    of a registered command or one of the registered examples. *)
Theorem suggestCompletions_result {host : Host} (this : CommandRegistry)
  (partialText : jsstring) :
  match toLowerCase (trim partialText) with
  | [] =>
      suggestCompletions this partialText
      = [js "create session"; js "list simulators"; js "install app";
         js "launch app"; js "terminate session"]
  | _ :: _ =>
      length (suggestCompletions this partialText) <= 5
      /\ Forall (fun s => In s (allCommands this) \/ In s (allExamples this))
                (suggestCompletions this partialText)
  end.
Proof.
  unfold suggestCompletions.
  destruct (toLowerCase (trim partialText)) as [|c rest]; [reflexivity|].
  split.
  - rewrite length_map, findMatches_count. lia.
  - apply Forall_forall. intros s Hs. apply list_elem_of_In in Hs.
    apply in_map_iff in Hs as (r & <- & Hr).
    apply findMatches_item_in in Hr.
    apply in_flat_map in Hr as (h & Hh & Hr).
    apply in_flat_map in Hr as (d & Hd & Hr).
    assert (Hdef : In d (orderedDefinitions this)).
    { unfold orderedDefinitions. apply in_flat_map. exists h. split; assumption. }
    destruct Hr as [<-|Hr].
    + left. unfold allCommands. apply in_map, Hdef.
    + right. unfold allExamples. apply in_flat_map. exists d. split; assumption.
Qed.

(** ** Substrings *)

Lemma startsWith_app s p : startsWith s p = true <-> exists rest, s = p ++ rest.
Proof.
  revert s. induction p as [|a p IH]; intros s; simpl.
  - split; [intros _; exists s; reflexivity | intros _; destruct s; reflexivity].
  - destruct s as [|b s]; simpl;
      [split; [discriminate | intros [rest H]; discriminate]|].
    rewrite andb_true_iff, N.eqb_eq, IH. split.
    + intros [-> [rest ->]]. exists rest. reflexivity.
    + intros [rest H]. injection H as -> ->. split; [reflexivity | eauto].
Qed.

Lemma includes_app s p :
  includes s p = true <-> exists before rest, s = before ++ p ++ rest.
Proof.
  induction s as [|b s IH]; cbn [includes].
  - rewrite orb_false_r, startsWith_app. split.
    + intros [rest H]. exists [], rest. exact H.
    + intros (before & rest & H). destruct before; [|discriminate].
      exists rest. exact H.
  - rewrite orb_true_iff, startsWith_app, IH. split.
    + intros [[rest H]|(before & rest & H)].
      * exists [], rest. exact H.
      * exists (b :: before), rest. rewrite H. reflexivity.
    + intros (before & rest & H). destruct before as [|b' before].
      * left. exists rest. exact H.
      * right. injection H as _ H. exists before, rest. exact H.
Qed.

Lemma includes_same s : includes s s = true.
Proof. apply includes_app. exists [], []. rewrite app_nil_r. reflexivity. Qed.

Lemma includes_chain s k k' :
  includes s k = true -> includes k k' = true -> includes s k' = true.
Proof.
  rewrite !includes_app. intros (a & b & ->) (a' & b' & ->).
  exists (a ++ a'), (b' ++ b). rewrite <- !app_assoc. reflexivity.
Qed.

(** ** More on the mapper *)

Lemma ownProperty_In : forall entries key value,
  ownProperty entries key = Some value -> In (key, value) entries.
Proof.
  induction entries as [|[k v] entries IH]; intros key value H; [discriminate|].
  simpl in H. destruct (jsstring_eqb key k) eqn:E.
  - apply jsstring_eqb_eq in E. subst k. injection H as ->. left. reflexivity.
  - right. apply IH, H.
Qed.

Lemma find_substring_of_entry lowerCommand : forall entries value,
  In (lowerCommand, value) entries ->
  find (fun entry : jsstring * CommandType => includes lowerCommand (fst entry)) entries
  <> None.
Proof.
  intros entries value Hin Hnone.
  pose proof (find_none _ _ Hnone _ Hin) as H. simpl in H.
  rewrite includes_same in H. discriminate.
Qed.


Lemma find_first_key lowerCommand : forall entries key value,
  find (fun entry : jsstring * CommandType => includes lowerCommand (fst entry)) entries
  = Some (key, value) ->
  containsEarlierKey entries key = false.
Proof.
  induction entries as [|[k v] entries IH]; intros key value H; [discriminate|].
  simpl in H |- *. destruct (includes lowerCommand k) eqn:E.
  - injection H as -> ->. rewrite jsstring_eqb_refl. reflexivity.
  - destruct (jsstring_eqb key k); [reflexivity|].
    rewrite (IH key value H), orb_false_r.
    destruct (includes key k) eqn:Ek; [|reflexivity].
    apply find_some in H as [_ Hkey]. simpl in Hkey.
    rewrite (includes_chain _ _ _ Hkey Ek) in E. discriminate.
Qed.

(** X16.  Whatever the table, the scan for a partial match never selects an
    entry whose key contains the key of an earlier entry: the earlier entry
    is selected first. *)
Theorem partialMatch_never_shadowed (this : ParserToOrchestrator)
  (lowerCommand key : jsstring) (value : CommandType) :
  partialMatch (commandMappings this) lowerCommand = Some (key, value) ->
  containsEarlierKey (commandMappings this) key = false
  /\ includes lowerCommand key = true.
Proof.
  rewrite partialMatch_find. intros H. split; [eapply find_first_key, H|].
  apply find_some in H as [_ H]. exact H.
Qed.

Lemma partialMatch_never_shadowed_witness :
  partialMatch (commandMappings new_ParserToOrchestrator) (js "please uninstall app now")
  = Some (js "install app", INSTALL_APP)
  /\ containsEarlierKey (commandMappings new_ParserToOrchestrator) (js "install app")
     = false
  /\ containsEarlierKey (commandMappings new_ParserToOrchestrator) (js "uninstall app")
     = true.
Proof.
  assert (H : partialMatch (commandMappings new_ParserToOrchestrator)
                (js "please uninstall app now")
              = Some (js "install app", INSTALL_APP)) by (vm_compute; reflexivity).
  split; [exact H|].
  split; [exact (proj1 (partialMatch_never_shadowed _ _ _ _ H))|].
  vm_compute. reflexivity.
Defined.

Lemma shadowed_types_entries :
  forallb
    (fun entry : jsstring * CommandType =>
       implb (bool_decide (snd entry = PRESS_KEY_SEQUENCE)
              || bool_decide (snd entry = LIST_CRASH_LOGS)
              || bool_decide (snd entry = DELETE_CRASH_LOGS))
             (containsEarlierKey (commandMappings new_ParserToOrchestrator) (fst entry)))
    (commandMappings new_ParserToOrchestrator) = true.
Proof. vm_compute. reflexivity. Qed.

(** X17.  On the table of the constructor the types PRESS_KEY_SEQUENCE,
    LIST_CRASH_LOGS and DELETE_CRASH_LOGS are returned only for a command
    that, lower-cased, is exactly one of the keys: each of their keys
    contains an earlier key ("press key", "logs"), which wins every partial
    match. *)
Theorem mapToCommandType_exact_only {host : Host} (naturalCommand : jsstring)
  (value : CommandType) :
  mapToCommandType new_ParserToOrchestrator naturalCommand = Returns value ->
  value = PRESS_KEY_SEQUENCE \/ value = LIST_CRASH_LOGS \/ value = DELETE_CRASH_LOGS ->
  In (toLowerCase naturalCommand, value) (commandMappings new_ParserToOrchestrator).
Proof.
  unfold mapToCommandType, readMapping.
  set (lowerCommand := toLowerCase naturalCommand).
  destruct (ownProperty _ lowerCommand) as [v|] eqn:Eown.
  - destruct (CommandType_value_nonempty v) as (c & rest & ->).
    intros H _. injection H as ->. apply ownProperty_In, Eown.
  - destruct (existsb _ objectPrototypeNames); [discriminate|].
    rewrite partialMatch_find.
    destruct (find _ _) as [[key v]|] eqn:Efind; [|discriminate].
    intros H Hvalue. injection H as ->. exfalso.
    pose proof (find_first_key _ _ _ _ Efind) as Hfirst.
    apply find_some in Efind as [Hin _].
    pose proof shadowed_types_entries as Hall.
    rewrite List.forallb_forall in Hall. specialize (Hall _ Hin). cbn [fst snd] in Hall.
    rewrite Hfirst in Hall.
    destruct Hvalue as [-> | [-> | ->]]; vm_compute in Hall; discriminate.
Qed.

Lemma mapToCommandType_exact_only_witness :
  mapToCommandType (host := latin_host) new_ParserToOrchestrator (js "List Crash Logs")
  = Returns LIST_CRASH_LOGS
  /\ In (toLowerCase (Host := latin_host) (js "List Crash Logs"), LIST_CRASH_LOGS)
        (commandMappings new_ParserToOrchestrator).
Proof.
  assert (H : mapToCommandType (host := latin_host) new_ParserToOrchestrator
                (js "List Crash Logs") = Returns LIST_CRASH_LOGS)
    by (vm_compute; reflexivity).
  split; [exact H|].
  apply (mapToCommandType_exact_only (host := latin_host) _ _ H). auto.
Defined.

(** A command that only contains such a key goes to the earlier key. *)
Example mapToCommandType_shadowed :
  mapToCommandType (host := latin_host) new_ParserToOrchestrator
    (js "uninstall app com.example.demo") = Returns INSTALL_APP
  /\ mapToCommandType (host := latin_host) new_ParserToOrchestrator
       (js "delete crash logs for com.example.demo") = Returns GET_LOGS.
Proof. split; vm_compute; reflexivity. Qed.

Lemma mapToCommandType_returns_entry {host : Host} naturalCommand value :
  mapToCommandType new_ParserToOrchestrator naturalCommand = Returns value ->
  exists key, In (key, value) (commandMappings new_ParserToOrchestrator).
Proof.
  unfold mapToCommandType, readMapping.
  destruct (ownProperty _ _) as [v|] eqn:Eown.
  - destruct (CommandType_value_nonempty v) as (c & rest & ->).
    intros H. injection H as ->. eexists. apply ownProperty_In, Eown.
  - destruct (existsb _ objectPrototypeNames); [discriminate|].
    rewrite partialMatch_find.
    destruct (find _ _) as [[key v]|] eqn:Efind; [|discriminate].
    intros H. injection H as ->. exists key. apply find_some in Efind as [Hin _].
    exact Hin.
Qed.

(** X18.  Every command type the mapper returns is stored in the table; the
    composite types SEQUENCE and CONDITIONAL and the type TAKE_SCREENSHOT,
    which no entry holds, are never returned. *)
Theorem mapToCommandType_range {host : Host} (naturalCommand : jsstring)
  (value : CommandType) :
  mapToCommandType new_ParserToOrchestrator naturalCommand = Returns value ->
  (exists key, In (key, value) (commandMappings new_ParserToOrchestrator))
  /\ value <> SEQUENCE /\ value <> CONDITIONAL /\ value <> TAKE_SCREENSHOT.
Proof.
  intros H. destruct (mapToCommandType_returns_entry _ _ H) as [key Hin].
  split; [eauto|].
  assert (Hall : forallb
            (fun entry : jsstring * CommandType =>
               negb (bool_decide (snd entry = SEQUENCE))
               && negb (bool_decide (snd entry = CONDITIONAL))
               && negb (bool_decide (snd entry = TAKE_SCREENSHOT)))
            (commandMappings new_ParserToOrchestrator) = true)
    by (vm_compute; reflexivity).
  rewrite List.forallb_forall in Hall. specialize (Hall _ Hin). cbn [snd] in Hall.
  apply andb_prop in Hall as [Hall H3]. apply andb_prop in Hall as [H1 H2].
  repeat split; intros ->; vm_compute in H1, H2, H3; discriminate.
Qed.

Lemma mapToCommandType_range_witness :
  mapToCommandType (host := latin_host) new_ParserToOrchestrator (js "take screenshot")
  = Returns CAPTURE_SCREEN
  /\ (exists key, In (key, CAPTURE_SCREEN) (commandMappings new_ParserToOrchestrator))
  /\ CAPTURE_SCREEN <> TAKE_SCREENSHOT.
Proof.
  assert (H : mapToCommandType (host := latin_host) new_ParserToOrchestrator
                (js "take screenshot") = Returns CAPTURE_SCREEN)
    by (vm_compute; reflexivity).
  split; [exact H|].
  destruct (mapToCommandType_range (host := latin_host) _ _ H) as (Hkey & _ & _ & Hne).
  split; [exact Hkey | exact Hne].
Defined.

(** X19.  Every key of the table that is made of Basic Latin units, given as
    the command, is mapped to the type stored under it: the keys are in
    lower case, so the exact lookup finds each of them. *)
Theorem mapToCommandType_key {host : Host} (key : jsstring) (value : CommandType) :
  In (key, value) (commandMappings new_ParserToOrchestrator) ->
  forallb isAscii key = true ->
  mapToCommandType new_ParserToOrchestrator key = Returns value.
Proof.
  intros Hin Hascii.
  assert (Hall : forallb
            (fun entry : jsstring * CommandType =>
               implb (forallb isAscii (fst entry))
                     (jsstring_eqb (map asciiLower (fst entry)) (fst entry)))
            (commandMappings new_ParserToOrchestrator) = true)
    by (vm_compute; reflexivity).
  rewrite List.forallb_forall in Hall. specialize (Hall _ Hin). cbn [fst] in Hall.
  rewrite Hascii in Hall. simpl in Hall. apply jsstring_eqb_eq in Hall.
  unfold mapToCommandType, readMapping.
  rewrite (toLowerCase_ascii key Hascii), Hall.
  rewrite (ownProperty_of_entry _ _ _ commandMappings_keys_distinct Hin).
  destruct (CommandType_value_nonempty value) as (c & rest & ->). reflexivity.
Qed.

Lemma mapToCommandType_key_witness :
  In (js "uninstall app", UNINSTALL_APP) (commandMappings new_ParserToOrchestrator)
  /\ forallb isAscii (js "uninstall app") = true
  /\ mapToCommandType (host := latin_host) new_ParserToOrchestrator (js "uninstall app")
     = Returns UNINSTALL_APP.
Proof.
  assert (Hin : In (js "uninstall app", UNINSTALL_APP)
                   (commandMappings new_ParserToOrchestrator)).
  { apply list_elem_of_In. apply (bool_decide_unpack _). vm_compute. reflexivity. }
  split; [exact Hin|]. split; [reflexivity|].
  apply (mapToCommandType_key (host := latin_host) _ _ Hin). reflexivity.
Defined.

(** ** More on the coercion *)

Lemma setProperty_same o k v :
  getProperty o k = v -> v <> JUndefined -> setProperty o k v = o.
Proof.
  induction o as [|[k' v'] o IH]; simpl; [congruence|].
  destruct (jsstring_eqb k k') eqn:E.
  - apply jsstring_eqb_eq in E. subst k'. intros -> _. reflexivity.
  - intros H Hv. rewrite (IH H Hv). reflexivity.
Qed.

Section CoerceTwice.
Context {host : Host}.

Lemma numberProperty_of_number o k :
  getProperty o k = numberOf (getProperty o k) -> numberProperty o k = o.
Proof.
  unfold numberProperty. destruct (getProperty o k) eqn:E; simpl;
    try discriminate; try reflexivity.
  intros _. apply setProperty_same; [exact E | discriminate].
Qed.

Lemma numberProperties_of_numbers names : forall o,
  (forall k, In k names -> getProperty o k = numberOf (getProperty o k)) ->
  fold_left numberProperty names o = o.
Proof.
  induction names as [|k names IH]; intros o H; [reflexivity|].
  simpl. rewrite (numberProperty_of_number o k) by (apply H; left; reflexivity).
  apply IH. intros k' Hk'. apply H. right. exact Hk'.
Qed.

Lemma booleanProperty_twice o k :
  booleanProperty (booleanProperty o k) k = booleanProperty o k.
Proof.
  unfold booleanProperty at 1.
  rewrite getProperty_booleanProperty, jsstring_eqb_refl.
  destruct (getProperty o k); reflexivity.
Qed.

Lemma convertObject_twice t o : convertObject t (convertObject t o) = convertObject t o.
Proof.
  destruct (decide (t = CREATE_SIMULATOR_SESSION)) as [->|Hne].
  - apply booleanProperty_twice.
  - rewrite !(convertObject_numeric t _ Hne).
    apply numberProperties_of_numbers. intros k Hk.
    rewrite getProperty_numberProperties.
    apply In_member in Hk. rewrite Hk. symmetry. apply numberOf_twice.
Qed.

End CoerceTwice.

(** X20.  Converting the converted parameters changes nothing more: a second
    call on the object the first call returned yields, at yet another
    location, an object with the same properties. *)
Theorem convertParameters_twice {host : Host} (t : CommandType) (p : loc) (h : Heap) :
  let '(l1, h1) := convertParameters t p h in
  let '(l2, h2) := convertParameters t l1 h1 in
  h2 !! l2 = h1 !! l1 /\ l2 <> l1 /\ h2 !! l1 = h1 !! l1.
Proof.
  rewrite convertParameters_run.
  set (l1 := fresh (dom h)).
  set (o1 := convertObject t (match h !! p with Some o => o | None => [] end)).
  rewrite convertParameters_run.
  set (h1 := <[l1 := o1]> h).
  set (l2 := fresh (dom h1)).
  assert (H1 : h1 !! l1 = Some o1) by apply lookup_insert_eq.
  assert (Hfresh : h1 !! l2 = None) by (apply not_elem_of_dom, is_fresh).
  assert (Hne : l2 <> l1) by (intros Heq; rewrite Heq in Hfresh; congruence).
  rewrite H1. split; [|split; [exact Hne|]].
  - rewrite lookup_insert_eq. f_equal. apply convertObject_twice.
  - rewrite lookup_insert_ne by exact Hne. exact H1.
Qed.

(** X21.  For a command type other than TAP, SWIPE and
    CREATE_SIMULATOR_SESSION the object returned has exactly the properties
    of the parser's object, values and order included. *)
Theorem convertParameters_copy {host : Host} (t : CommandType) (p : loc) (h : Heap)
  (o : JsObject) :
  h !! p = Some o ->
  t <> TAP -> t <> SWIPE -> t <> CREATE_SIMULATOR_SESSION ->
  let '(l, h') := convertParameters t p h in h' !! l = Some o.
Proof.
  intros Hp Htap Hswipe Hcreate. rewrite convertParameters_run, Hp, lookup_insert_eq.
  f_equal. destruct t; try reflexivity; contradiction.
Qed.

Lemma convertParameters_copy_witness :
  heapWith tapParameters !! 1%positive = Some tapParameters
  /\ let '(l, h') :=
       convertParameters (host := latin_host) DESCRIBE_POINT 1%positive
         (heapWith tapParameters) in
     h' !! l = Some tapParameters.
Proof.
  split; [reflexivity|].
  apply (convertParameters_copy (host := latin_host) DESCRIBE_POINT 1%positive
           (heapWith tapParameters) tapParameters); [reflexivity | discriminate..].
Defined.

(** ** The help system *)

Section Help.
Context {host : Host}.
Import HelpSystem.

Lemma entriesNamed_registered (defs : list CommandDefinition) : forall names,
  (forall commandName, In commandName names -> In commandName (map command defs)) ->
  exists entries,
    entriesNamed defs names = Some entries
    /\ map entry_command entries = names
    /\ Forall (fun e => length (entry_examples e) <= 1) entries.
Proof.
  induction names as [|commandName names IH]; intros Hreg.
  - exists []. repeat split. constructor.
  - destruct IH as (entries & Hentries & Hnames & Hshort);
      [intros x Hx; apply Hreg; right; exact Hx|].
    assert (Hsome : exists def,
               find (fun def => jsstring_eqb (command def) commandName) defs = Some def).
    { apply find_some_of_existsb. apply existsb_exists.
      specialize (Hreg commandName ltac:(left; reflexivity)).
      apply in_map_iff in Hreg as (def & Hdef & Hin).
      exists def. split; [exact Hin | apply jsstring_eqb_eq, Hdef]. }
    destruct Hsome as [def Hfind].
    exists (entryOf (Some 1) def :: entries). simpl.
    rewrite Hfind, Hentries. split; [reflexivity|]. split.
    + apply find_some in Hfind as [_ Heq]. apply jsstring_eqb_eq in Heq.
      rewrite Heq, Hnames. reflexivity.
    + constructor; [apply firstn_le_length | exact Hshort].
Qed.

(** The names [searchCommands] looks up are names of definitions. *)
Lemma searchCommands_names (this : HelpSystem) (query : jsstring) commandName :
  In commandName
     (Set_of
        (map item (findMatches query (map command (commandDefinitions this)) 10 (2 # 10))
         ++ map command
              (List.filter
                 (fun def =>
                    includes (toLowerCase (description def)) (toLowerCase query)
                    || existsb (fun example =>
                                  includes (toLowerCase example) (toLowerCase query))
                               (examples def))
                 (commandDefinitions this)))) ->
  In commandName (map command (commandDefinitions this)).
Proof.
  rewrite Set_of_dedupe, In_dedupe. intros Hin. apply in_app_or in Hin as [Hin|Hin].
  - apply in_map_iff in Hin as (r & <- & Hr). eapply findMatches_item_in, Hr.
  - apply in_map_iff in Hin as (def & <- & Hdef).
    apply List.filter_In in Hdef as [Hdef _]. apply in_map, Hdef.
Qed.

Lemma searchCommands_outcome (this : HelpSystem) (query : jsstring) :
  exists response,
    searchCommands this query = Responds response
    /\ match response_commands response with
       | Some commands =>
           commands <> []
           /\ NoDup (map entry_command commands)
           /\ Forall (fun e =>
                        In (entry_command e) (map command (commandDefinitions this))
                        /\ length (entry_examples e) <= 1)
                     commands
       | None => response_suggestions response = Some getPopularCommands
       end.
Proof.
  unfold searchCommands. destruct (trim query) as [|c rest]; [eexists; split; reflexivity|].
  cbv zeta.
  set (names := Set_of _).
  assert (Hreg : forall x, In x names -> In x (map command (commandDefinitions this)))
    by (intros x; apply searchCommands_names).
  assert (Hnd : NoDup names) by (subst names; rewrite Set_of_dedupe; apply NoDup_dedupe).
  destruct (entriesNamed_registered (commandDefinitions this) names Hreg)
    as (entries & Hentries & Hnames & Hshort).
  rewrite Hentries.
  destruct names as [|x names'] eqn:E; [eexists; split; reflexivity|].
  eexists. split; [reflexivity|]. cbn [response_commands].
  split; [destruct entries; [discriminate | discriminate]|].
  split; [rewrite Hnames; exact Hnd|].
  apply Forall_forall. intros e He. split.
  - apply Hreg. rewrite <- Hnames. apply in_map. apply list_elem_of_In, He.
  - rewrite Forall_forall in Hshort. apply Hshort, He.
Qed.

End Help.


(** X23.  [getCategoryHelp] never answers an unknown category without
    suggestions: it suggests category names, the near ones if there are any
    and all seven otherwise.  For a known category, matched without regard
    to case, it lists the stored definitions whose command belongs to the
    category, each with at most two examples. *)
Theorem getCategoryHelp_result {host : Host} (this : HelpSystem.HelpSystem)
  (categoryName : jsstring) :
  let response := HelpSystem.getCategoryHelp this categoryName in
  match find (fun cat =>
                jsstring_eqb (toLowerCase (HelpSystem.category_name cat))
                             (toLowerCase categoryName))
             HelpSystem.categories with
  | None =>
      HelpSystem.response_commands response = None
      /\ exists suggested,
           HelpSystem.response_suggestions response = Some suggested
           /\ suggested <> []
           /\ Forall (fun s => In s (map HelpSystem.category_name HelpSystem.categories))
                     suggested
  | Some category =>
      HelpSystem.response_category response = Some (HelpSystem.category_name category)
      /\ exists commands,
           HelpSystem.response_commands response = Some commands
           /\ Forall (fun e =>
                        In (HelpSystem.entry_command e)
                           (HelpSystem.category_commands category)
                        /\ In (HelpSystem.entry_command e)
                              (map command (HelpSystem.commandDefinitions this))
                        /\ length (HelpSystem.entry_examples e) <= 2)
                     commands
  end.
Proof.
  unfold HelpSystem.getCategoryHelp.
  destruct (find _ HelpSystem.categories) as [category|]; cbv zeta.
  - split; [reflexivity|]. eexists. split; [reflexivity|].
    apply Forall_forall. intros e He. apply list_elem_of_In in He.
    apply in_map_iff in He as (def & <- & Hdef).
    apply List.filter_In in Hdef as [Hdef Hmember].
    cbn [HelpSystem.entry_command HelpSystem.entry_examples HelpSystem.entryOf].
    split; [apply In_member, Hmember|]. split; [apply in_map, Hdef|].
    apply firstn_le_length.
  - split; [reflexivity|]. eexists. split; [reflexivity|].
    destruct (map item _) as [|s suggested] eqn:E.
    + split; [discriminate|]. apply Forall_forall. intros s Hs.
      apply list_elem_of_In, Hs.
    + split; [discriminate|]. rewrite <- E. apply Forall_forall. intros x Hx.
      apply list_elem_of_In in Hx. apply in_map_iff in Hx as (r & <- & Hr).
      eapply findMatches_item_in, Hr.
Qed.

(** X24.  [getCommandHelp] never answers an unknown command without
    suggestions: it suggests stored commands near the name, or the popular
    commands when none is near.  For a known command, matched without regard
    to case, it describes one definition, the first with that name, with all
    its examples. *)
Theorem getCommandHelp_result {host : Host} (this : HelpSystem.HelpSystem)
  (commandName : jsstring) :
  let response := HelpSystem.getCommandHelp this commandName in
  match find (fun def =>
                jsstring_eqb (toLowerCase (command def)) (toLowerCase commandName))
             (HelpSystem.commandDefinitions this) with
  | None =>
      HelpSystem.response_commands response = None
      /\ exists suggested,
           HelpSystem.response_suggestions response = Some suggested
           /\ suggested <> []
           /\ Forall (fun s =>
                        In s (map command (HelpSystem.commandDefinitions this))
                        \/ In s HelpSystem.getPopularCommands)
                     suggested
  | Some definition =>
      HelpSystem.response_suggestions response = None
      /\ HelpSystem.response_commands response
         = Some [ {| HelpSystem.entry_command := command definition;
                     HelpSystem.entry_description := description definition;
                     HelpSystem.entry_examples := examples definition;
                     HelpSystem.entry_requiredParameters := requiredParameters definition;
                     HelpSystem.entry_optionalParameters := optionalParameters definition |} ]
      /\ toLowerCase (command definition) = toLowerCase commandName
  end.
Proof.
  unfold HelpSystem.getCommandHelp.
  destruct (find _ (HelpSystem.commandDefinitions this)) as [definition|] eqn:Efind;
    cbv zeta.
  - split; [reflexivity|]. split; [reflexivity|].
    apply find_some in Efind as [_ Heq]. apply jsstring_eqb_eq, Heq.
  - split; [reflexivity|]. eexists. split; [reflexivity|].
    destruct (map item _) as [|s suggested] eqn:E.
    + split; [discriminate|]. apply Forall_forall. intros s Hs. right.
      apply list_elem_of_In, Hs.
    + split; [discriminate|]. rewrite <- E. apply Forall_forall. intros x Hx. left.
      apply list_elem_of_In in Hx. apply in_map_iff in Hx as (r & <- & Hr).
      eapply findMatches_item_in, Hr.
Qed.

Lemma find_same_on {A} (f g : A -> bool) (l : list A) :
  (forall x, In x l -> f x = g x) -> find f l = find g l.
Proof.
  induction l as [|x l IH]; intros H; [reflexivity|].
  simpl. rewrite (H x) by (left; reflexivity).
  destruct (g x); [reflexivity|]. apply IH. intros y Hy. apply H. right. exact Hy.
Qed.

Section HelpRouting.
Context {host : Host}.
Import HelpSystem.

(** The names of the categories are in lower case. *)
Lemma category_name_lower category :
  In category categories -> toLowerCase (category_name category) = category_name category.
Proof.
  intros Hin.
  repeat (destruct Hin as [<-|Hin];
          [rewrite toLowerCase_ascii by (vm_compute; reflexivity);
           vm_compute; reflexivity|]).
  contradiction.
Qed.

Lemma find_category_by_name category (target : jsstring) :
  In category categories ->
  target = category_name category ->
  find (fun cat => jsstring_eqb (toLowerCase (category_name cat)) target) categories
  = Some category.
Proof.
  intros Hin ->.
  rewrite (find_same_on _ (fun cat => jsstring_eqb (category_name cat)
                                        (category_name category)))
    by (intros x Hx; rewrite (category_name_lower x Hx); reflexivity).
  repeat (destruct Hin as [<-|Hin]; [vm_compute; reflexivity|]). contradiction.
Qed.

Lemma help_request_target category :
  In category categories ->
  jsstring_eqb (js "help " ++ category_name category) (js "help") = false
  /\ startsWith (js "help " ++ category_name category) (js "help ") = true
  /\ trim (skipn 5 (js "help " ++ category_name category)) = category_name category
  /\ exists c rest, js "help " ++ category_name category = c :: rest.
Proof.
  intros Hin.
  repeat (destruct Hin as [<-|Hin];
          [split; [vm_compute; reflexivity|];
           split; [vm_compute; reflexivity|];
           split; [vm_compute; reflexivity|];
           eexists; eexists; vm_compute; reflexivity|]).
  contradiction.
Qed.

Lemma processHelpRequest_outcome (this : HelpSystem) (request : jsstring)
  (hasActiveSession : bool) :
  exists response, processHelpRequest this request hasActiveSession = Responds response.
Proof.
  unfold processHelpRequest. cbv zeta.
  destruct (toLowerCase (trim request)) as [|c rest]; [eauto|].
  destruct (jsstring_eqb _ (js "help")); [eauto|].
  destruct (startsWith _ (js "help ")).
  - destruct (find _ categories); [eauto|].
    destruct (find _ (commandDefinitions this)); [eauto|].
    destruct (searchCommands_outcome this (trim (skipn 5 (c :: rest)))) as (r & Hr & _).
    eauto.
  - destruct (_ || _); [eauto|].
    destruct (startsWith _ (js "search ")).
    + destruct (searchCommands_outcome this (trim (skipn 7 (c :: rest)))) as (r & Hr & _).
      eauto.
    + destruct (searchCommands_outcome this (c :: rest)) as (r & Hr & _). eauto.
Qed.

End HelpRouting.

(** X25.  A request that, trimmed and lower-cased, reads "help " followed by
    the name of a category is answered with the help of that category, also
    when a stored command has the same name: the lookup of the dispatcher and
    the lookup of [getCategoryHelp] find the same category. *)
Theorem processHelpRequest_category {host : Host} (this : HelpSystem.HelpSystem)
  (request : jsstring) (hasActiveSession : bool)
  (category : HelpSystem.CommandCategory) :
  In category HelpSystem.categories ->
  toLowerCase (trim request) = js "help " ++ HelpSystem.category_name category ->
  exists response,
    HelpSystem.processHelpRequest this request hasActiveSession
    = HelpSystem.Responds response
    /\ HelpSystem.response_category response
       = Some (HelpSystem.category_name category)
    /\ HelpSystem.response_commands response
       = Some (map (HelpSystem.entryOf (Some 2))
                 (List.filter
                    (fun def => member (command def)
                                  (HelpSystem.category_commands category))
                    (HelpSystem.commandDefinitions this))).
Proof.
  intros Hin Hrequest.
  destruct (help_request_target category Hin) as (Hhelp & Hstarts & Htarget & c & rest & Hcons).
  unfold HelpSystem.processHelpRequest. cbv zeta. rewrite Hrequest.
  rewrite Hhelp, Hstarts, Htarget.
  rewrite (find_category_by_name category _ Hin eq_refl).
  destruct (js "help " ++ HelpSystem.category_name category) as [|c' rest'];
    [discriminate|].
  eexists. split; [reflexivity|].
  unfold HelpSystem.getCategoryHelp.
  rewrite (category_name_lower category Hin).
  rewrite (find_category_by_name category _ Hin eq_refl).
  split; reflexivity.
Qed.

Lemma processHelpRequest_category_witness :
  toLowerCase (Host := latin_host) (trim (js "  Help UI ")) = js "help " ++ js "ui"
  /\ exists response,
       HelpSystem.processHelpRequest (host := latin_host) sampleHelp (js "  Help UI ") false
       = HelpSystem.Responds response
       /\ HelpSystem.response_category response = Some (js "ui").
Proof.
  assert (Hrequest : toLowerCase (Host := latin_host) (trim (js "  Help UI "))
                     = js "help " ++ js "ui") by (vm_compute; reflexivity).
  split; [exact Hrequest|].
  destruct (processHelpRequest_category (host := latin_host) sampleHelp (js "  Help UI ")
              false
              {| HelpSystem.category_name := js "ui";
                 HelpSystem.category_description := js "Interact with the simulator UI";
                 HelpSystem.category_icon := js "🖱️";
                 HelpSystem.category_commands :=
                   [js "tap"; js "swipe"; js "press button"; js "input text";
                    js "press key"; js "press key sequence"] |}
              ltac:(right; right; left; reflexivity) Hrequest)
    as (response & Hresponse & Hcategory & _).
  exists response. split; [exact Hresponse | exact Hcategory].
Defined.

(** X26.  [processHelpRequest] answers every request: none of its routes
    ends in the [TypeError] that reading a definition that was not found
    would raise. *)
Theorem processHelpRequest_responds {host : Host} (this : HelpSystem.HelpSystem)
  (request : jsstring) (hasActiveSession : bool) :
  exists response,
    HelpSystem.processHelpRequest this request hasActiveSession
    = HelpSystem.Responds response.
Proof. apply processHelpRequest_outcome. Qed.
